(** * Cache-first place resolution: the hooks of react-map-address-input

    A shallow embedding of [useFirebasePlacesAutocompleteService] (the
    prediction pipeline: ordered cache layers, Google fallback, write-back)
    and of [useFirebaseGoogleAddress] (detail resolution of a selected
    prediction), with the built-in Firestore layer of [createFirebaseLayer].

    Conventions of the embedding.
    - A JavaScript string is a [string] whose characters are the code units
      U+0000..U+00FF; [trim] and [toLowerCase] are exact on that range.
    - [await] points are sequenced: an async function is a state transformer
      that either completes normally or throws (a rejected promise).
    - React state setters take effect at once; a callback reads the state of
      the world it runs in.
    - Everything outside the hooks is the [Stores] component of the world
      (documents of the Firestore database, the position in the stream of
      [Math.random] draws, the log of store operations); every call a hook
      makes to a collaborator is appended to the [calls] of the world. *)

From Stdlib Require Import String Ascii NArith ZArith List Bool Lia.
From stdpp Require Import base option list strings gmap.
Import ListNotations.

Local Open Scope string_scope.
Local Open Scope list_scope.

(** ** JavaScript string built-ins used by the source *)

Module JS.

(** WhiteSpace and LineTerminator code points below U+0100: TAB, LF, VT,
    FF, CR, SP and NBSP. *)
Definition isWhiteSpace (c : ascii) : bool :=
  let n := N_of_ascii c in
  ((9 <=? n) && (n <=? 13) || (n =? 32) || (n =? 160))%N.

Fixpoint trimStart (s : string) : string :=
  match s with
  | EmptyString => EmptyString
  | String c rest => if isWhiteSpace c then trimStart rest else s
  end.

Fixpoint trimEnd (s : string) : string :=
  match s with
  | EmptyString => EmptyString
  | String c rest =>
      match trimEnd rest with
      | EmptyString => if isWhiteSpace c then EmptyString else String c EmptyString
      | kept => String c kept
      end
  end.

(** [String.prototype.trim] *)
Definition trim (s : string) : string := trimEnd (trimStart s).

(** Lower-case mapping of one code unit: A-Z, and the Latin-1 capitals
    U+00C0..U+00DE except the multiplication sign U+00D7. *)
Definition lowerChar (c : ascii) : ascii :=
  let n := N_of_ascii c in
  if ((65 <=? n) && (n <=? 90)
      || (192 <=? n) && (n <=? 222) && negb (n =? 215))%N
  then ascii_of_N (n + 32)
  else c.

(** [String.prototype.toLowerCase] *)
Fixpoint toLowerCase (s : string) : string :=
  match s with
  | EmptyString => EmptyString
  | String c rest => String (lowerChar c) (toLowerCase rest)
  end.

(** Truthiness of a string value that may be [undefined]. *)
Definition truthy (s : option string) : bool :=
  match s with
  | Some (String _ _) => true
  | _ => false
  end.

End JS.

(** Normalizes free-text input so cache keys are stable. *)
Definition normalizeInput (value : string) : string :=
  JS.toLowerCase (JS.trim value).

Definition DEFAULT_COLLECTION_PATH : string := "maps_addresses".

(** ** Data model *)

(** [google.maps.places.AutocompletePrediction]: the identifier (which a
    prediction may lack) and the display text. *)
Record AutocompletePrediction := {
  place_id : option string;
  description : string
}.

(** Coordinates are carried around, never computed with. *)
Record LatLng := { lat : Z; lng : Z }.

Record PlaceGeometry := { location : option LatLng }.

(** [google.maps.places.PlaceResult], the detail payload. *)
Record PlaceResult := {
  place_name : string;
  formatted_address : option string;
  geometry : option PlaceGeometry
}.

(** The sentinel produced by [serverTimestamp()]. *)
Inductive Timestamp := ServerTimestamp.

(** A Firestore document of the address collection.  A field is [None] when
    the document does not carry it (or carries a falsy value); the two
    nullable fields written by the detail resolver keep their [null]. *)
Record DocData := {
  normalizedInput : option string;
  prediction : option AutocompletePrediction;
  rawPlace : option PlaceResult;
  formattedAddress : option (option string);
  docLocation : option (option LatLng);
  updatedAt : option Timestamp
}.

Definition emptyDoc : DocData :=
  {| normalizedInput := None; prediction := None; rawPlace := None;
     formattedAddress := None; docLocation := None; updatedAt := None |}.

(** [setDoc(ref, data, { merge: true })]: the fields of [data] replace those
    of the stored document, the other stored fields stay. *)
Definition mergeDoc (data : DocData) (stored : option DocData) : DocData :=
  match stored with
  | None => data
  | Some old =>
      {| normalizedInput := normalizedInput data ∪ normalizedInput old;
         prediction := prediction data ∪ prediction old;
         rawPlace := rawPlace data ∪ rawPlace old;
         formattedAddress := formattedAddress data ∪ formattedAddress old;
         docLocation := docLocation data ∪ docLocation old;
         updatedAt := updatedAt data ∪ updatedAt old |}
  end.

(** ** Completions and the effect monad *)

(** How a call ends: with a value, or by throwing (a rejected promise). *)
Inductive Completion (A : Type) : Type :=
| Normal (a : A)
| Throws.
Arguments Normal {A} a.
Arguments Throws {A}.

(** A computation over a state [S] that may throw; the state reached when it
    throws is kept, as the effects before a JavaScript exception are. *)
Definition Eff (S A : Type) : Type := S -> Completion A * S.

Definition ret {S A} (a : A) : Eff S A := fun s => (Normal a, s).

Definition throw {S A} : Eff S A := fun s => (Throws, s).

Definition bind {S A B} (m : Eff S A) (k : A -> Eff S B) : Eff S B :=
  fun s =>
    match m s with
    | (Normal a, s') => k a s'
    | (Throws, s') => (Throws, s')
    end.

(** [try { body } catch { handler }] *)
Definition try_catch {S A} (body handler : Eff S A) : Eff S A :=
  fun s =>
    match body s with
    | (Normal a, s') => (Normal a, s')
    | (Throws, s') => handler s'
    end.

(** A promise nobody awaits: its rejection reaches no caller. *)
Definition detach {S} (m : Eff S unit) : Eff S unit :=
  fun s => (Normal tt, snd (m s)).

Definition modify {S} (f : S -> S) : Eff S unit := fun s => (Normal tt, f s).

Definition gets {S A} (f : S -> A) : Eff S A := fun s => (Normal (f s), s).

(** A call that returns or throws without touching the state. *)
Definition complete {S A} (c : Completion A) : Eff S A := fun s => (c, s).

Declare Scope eff_scope.
Delimit Scope eff_scope with eff.
Notation "x <- m ;; k" := (bind m (fun x => k))
  (at level 100, m at next level, right associativity) : eff_scope.
Notation "m ;; k" := (bind m (fun _ => k))
  (at level 100, right associativity) : eff_scope.
Local Open Scope eff_scope.

(** [await Promise.all(ps)] over promises already started: every one of them
    runs, and the result rejects when one of them did. *)
Fixpoint promiseAll {S} (ps : list (Eff S unit)) : Eff S unit :=
  match ps with
  | [] => ret tt
  | p :: rest =>
      fun s =>
        match p s with
        | (Normal _, s') => promiseAll rest s'
        | (Throws, s') => (Throws, snd (promiseAll rest s'))
        end
  end.

(** ** The persistent store (Cloud Firestore) *)

(** Operations the Firestore client was asked to perform. *)
Inductive StoreOp :=
| OpGetDocs (collectionPath normalizedKey : string)
| OpGetDoc (collectionPath docId : string)
| OpSetDoc (collectionPath docId : string) (data : DocData).

(** What lies outside the hooks: the documents, keyed by collection path and
    document id; the stream of [Math.random().toString(36).slice(2)] draws
    and how many were taken; the log of store operations. *)
Record Stores := {
  docs : gmap (string * string) DocData;
  randomSource : nat -> string;
  randomCalls : nat;
  storeLog : list StoreOp
}.

Definition logOp (op : StoreOp) (s : Stores) : Stores :=
  {| docs := docs s; randomSource := randomSource s;
     randomCalls := randomCalls s; storeLog := storeLog s ++ [op] |}.

Definition putDoc (key : string * string) (d : DocData) (s : Stores) : Stores :=
  {| docs := <[key := d]> (docs s); randomSource := randomSource s;
     randomCalls := randomCalls s; storeLog := storeLog s |}.

(** The Firestore handle of the configuration.  Store I/O can fail; which
    request is rejected is a property of the handle. *)
Record Firestore := {
  getDocsRejects : string -> string -> bool;
  getDocRejects : string -> string -> bool;
  setDocRejects : string -> string -> bool
}.

(** Documents of a collection whose [normalizedInput] field equals the key. *)
Definition matchesQuery (collectionPath key : string)
    (entry : string * string * DocData) : bool :=
  bool_decide (entry.1.1 = collectionPath)
  && bool_decide (normalizedInput entry.2 = Some key).

(** [getDocs(query(collection(fs, path), where("normalizedInput", "==", key)))]:
    the snapshot, as the list of the data of its documents. *)
Definition getDocs (fs : Firestore) (collectionPath key : string)
    : Eff Stores (list DocData) :=
  fun s =>
    let s' := logOp (OpGetDocs collectionPath key) s in
    if getDocsRejects fs collectionPath key then (Throws, s')
    else (Normal (snd <$> filter (fun e => matchesQuery collectionPath key e = true)
                                 (map_to_list (docs s))), s').

(** [getDoc(doc(collection(fs, path), id))]: [None] when the snapshot does
    not exist. *)
Definition getDoc (fs : Firestore) (collectionPath docId : string)
    : Eff Stores (option DocData) :=
  fun s =>
    let s' := logOp (OpGetDoc collectionPath docId) s in
    if getDocRejects fs collectionPath docId then (Throws, s')
    else (Normal (docs s !! (collectionPath, docId)), s').

(** [setDoc(doc(collection(fs, path), id), data, { merge: true })] *)
Definition setDoc (fs : Firestore) (collectionPath docId : string) (data : DocData)
    : Eff Stores unit :=
  fun s =>
    let s' := logOp (OpSetDoc collectionPath docId data) s in
    if setDocRejects fs collectionPath docId then (Throws, s')
    else (Normal tt,
          putDoc (collectionPath, docId)
                 (mergeDoc data (docs s !! (collectionPath, docId))) s').

(** [Math.random().toString(36).slice(2)] *)
Definition randomSuffix : Eff Stores string :=
  fun s =>
    (Normal (randomSource s (randomCalls s)),
     {| docs := docs s; randomSource := randomSource s;
        randomCalls := S (randomCalls s); storeLog := storeLog s |}).

(** ** Cache layers *)

Record FirebasePlacesConfig := {
  firestore : option Firestore;
  collectionPath : option string
}.

(** Result returned by a cache layer when it has data for a given input. *)
Record CacheReadResult := {
  predictions : list AutocompletePrediction;
  fromLayer : string
}.

(** A layer's [read] and [write] take the input they are handed and act on
    what lies outside the hooks; either may throw. *)
Definition CacheReadFn : Type := string -> Eff Stores (option CacheReadResult).
Definition CacheWriteFn : Type :=
  string -> list AutocompletePrediction -> Eff Stores unit.

(** A single cache layer in the pipeline. *)
Record CacheLayer := {
  name : string;
  read : option CacheReadFn;
  write : option CacheWriteFn
}.

(** [read] of the built-in layer. *)
Definition firebaseRead (fs : Firestore) (collectionPath : string) : CacheReadFn :=
  fun input =>
    let normalizedInput := normalizeInput input in
    snapshot <- getDocs fs collectionPath normalizedInput ;;
    match snapshot with
    | [] => ret None
    | _ =>
        let predictions := omap prediction snapshot in
        match predictions with
        | [] => ret None
        | _ => ret (Some {| predictions := predictions; fromLayer := "firebase" |})
        end
    end.

(** One element of [predictions.map(...)] in the built-in [write]: the
    document id is the prediction's own identifier, or the normalized input
    and a random suffix when it has none. *)
Definition firebaseWriteOne (fs : Firestore) (collectionPath normalizedInput : string)
    (p : AutocompletePrediction) : Eff Stores unit :=
  placeId <- (match place_id p with
              | Some (String c rest) => ret (String c rest)
              | _ => suffix <- randomSuffix ;;
                     ret (normalizedInput +:+ "-" +:+ suffix)
              end) ;;
  setDoc fs collectionPath placeId
    {| normalizedInput := Some normalizedInput; prediction := Some p;
       rawPlace := None; formattedAddress := None; docLocation := None;
       updatedAt := Some ServerTimestamp |}.

(** [write] of the built-in layer. *)
Definition firebaseWrite (fs : Firestore) (collectionPath : string) : CacheWriteFn :=
  fun input predictions =>
    match predictions with
    | [] => ret tt
    | _ =>
        let normalizedInput := normalizeInput input in
        promiseAll (firebaseWriteOne fs collectionPath normalizedInput <$> predictions)
    end.

(** Builds the built-in Firebase cache layer from configuration. *)
Definition createFirebaseLayer (config : option FirebasePlacesConfig)
    : option CacheLayer :=
  match config with
  | None => None
  | Some cfg =>
      match firestore cfg with
      | None => None
      | Some fs =>
          let path := default DEFAULT_COLLECTION_PATH (collectionPath cfg) in
          Some {| name := "firebase";
                  read := Some (firebaseRead fs path);
                  write := Some (firebaseWrite fs path) |}
      end
  end.

(** ** The hooks' state and their calls to collaborators *)

(** State of [useFirebasePlacesAutocompleteService]: the four [useState]
    cells and [lastInputRef]. *)
Record ServiceState := {
  placePredictions : list AutocompletePrediction;
  isPlacePredictionsLoading : bool;
  lastResultFromCache : option bool;
  lastCacheLayerName : option string;
  lastInputRef : option string
}.

(** State of [useFirebaseGoogleAddress] used by [selectPrediction]. *)
Record AddressState := {
  selectedPlace : option PlaceResult;
  isSelecting : bool
}.

(** Calls made by the hooks to cache layers, observers and the underlying
    Google bindings, in the order they are made. *)
Inductive Call :=
| CallRead (layerName input : string)
| CallWrite (layerName input : string) (preds : list AutocompletePrediction)
| CallOnAfterCacheHit (layerName input : string) (preds : list AutocompletePrediction)
| CallOnAfterGoogleResult (input : string) (preds : list AutocompletePrediction)
| CallBaseGetPlacePredictions (input : string)
| CallGetDetails (placeId : string).

Record World := {
  service : ServiceState;
  address : AddressState;
  stores : Stores;
  calls : list Call
}.

Definition withService (f : ServiceState -> ServiceState) (w : World) : World :=
  {| service := f (service w); address := address w;
     stores := stores w; calls := calls w |}.

Definition withAddress (f : AddressState -> AddressState) (w : World) : World :=
  {| service := service w; address := f (address w);
     stores := stores w; calls := calls w |}.

Definition setPlacePredictions (ps : list AutocompletePrediction) : Eff World unit :=
  modify (withService (fun st =>
    {| placePredictions := ps;
       isPlacePredictionsLoading := isPlacePredictionsLoading st;
       lastResultFromCache := lastResultFromCache st;
       lastCacheLayerName := lastCacheLayerName st;
       lastInputRef := lastInputRef st |})).

Definition setIsPlacePredictionsLoading (b : bool) : Eff World unit :=
  modify (withService (fun st =>
    {| placePredictions := placePredictions st;
       isPlacePredictionsLoading := b;
       lastResultFromCache := lastResultFromCache st;
       lastCacheLayerName := lastCacheLayerName st;
       lastInputRef := lastInputRef st |})).

Definition setLastResultFromCache (v : option bool) : Eff World unit :=
  modify (withService (fun st =>
    {| placePredictions := placePredictions st;
       isPlacePredictionsLoading := isPlacePredictionsLoading st;
       lastResultFromCache := v;
       lastCacheLayerName := lastCacheLayerName st;
       lastInputRef := lastInputRef st |})).

Definition setLastCacheLayerName (v : option string) : Eff World unit :=
  modify (withService (fun st =>
    {| placePredictions := placePredictions st;
       isPlacePredictionsLoading := isPlacePredictionsLoading st;
       lastResultFromCache := lastResultFromCache st;
       lastCacheLayerName := v;
       lastInputRef := lastInputRef st |})).

Definition setLastInputRef (v : option string) : Eff World unit :=
  modify (withService (fun st =>
    {| placePredictions := placePredictions st;
       isPlacePredictionsLoading := isPlacePredictionsLoading st;
       lastResultFromCache := lastResultFromCache st;
       lastCacheLayerName := lastCacheLayerName st;
       lastInputRef := v |})).

Definition setSelectedPlace (p : option PlaceResult) : Eff World unit :=
  modify (withAddress (fun st =>
    {| selectedPlace := p; isSelecting := isSelecting st |})).

Definition setIsSelecting (b : bool) : Eff World unit :=
  modify (withAddress (fun st =>
    {| selectedPlace := selectedPlace st; isSelecting := b |})).

(** Records a call made by a hook. *)
Definition call (c : Call) : Eff World unit :=
  modify (fun w =>
    {| service := service w; address := address w;
       stores := stores w; calls := calls w ++ [c] |}).

(** Runs a layer function or a store operation inside a hook. *)
Definition onStores {A} (m : Eff Stores A) : Eff World A :=
  fun w =>
    let (r, s') := m (stores w) in
    (r, {| service := service w; address := address w;
           stores := s'; calls := calls w |}).

(** ** Collaborators and options *)

Inductive PlacesServiceStatus :=
| OK | ZERO_RESULTS | NOT_FOUND | INVALID_REQUEST
| OVER_QUERY_LIMIT | REQUEST_DENIED | UNKNOWN_ERROR.

(** [google.maps.places.PlacesService]: [getDetails] hands a result and a
    status to its callback, or throws. *)
Record PlacesService := {
  getDetails : string -> Completion (option PlaceResult * PlacesServiceStatus)
}.

(** What the underlying [usePlacesService] hook returns, besides the
    predictions it delivers: the details service, when the SDK is loaded. *)
Record Base := {
  placesService : option PlacesService
}.

(** An observer callback returns or throws. *)
Definition CacheHitObserver : Type :=
  string -> string -> list AutocompletePrediction -> Completion unit.
Definition GoogleResultObserver : Type :=
  string -> list AutocompletePrediction -> Completion unit.

(** Configuration accepted by the Firebase-aware wrapper hook. *)
Record Options := {
  firebase : option FirebasePlacesConfig;
  cacheLayers : list CacheLayer;
  onAfterCacheHit : option CacheHitObserver;
  onAfterGoogleResult : option GoogleResultObserver
}.

(** The full ordered list of cache layers: user-defined first, then Firebase. *)
Definition orderedLayers (options : Options) : list CacheLayer :=
  cacheLayers options ++
  match createFirebaseLayer (firebase options) with
  | Some firebaseLayer => [firebaseLayer]
  | None => []
  end.

(** ** [useFirebasePlacesAutocompleteService] *)

Definition nonEmpty {A} (l : list A) : bool :=
  match l with [] => false | _ => true end.

(** One iteration of the cache loop of [getPlacePredictions]: the [read]
    guard and the [try]/[catch] statement.  It yields [true] when the
    iteration returned from the callback, [false] when the loop goes on. *)
Definition probeLayer (hitObserver : option CacheHitObserver) (value : string)
    (layer : CacheLayer) : Eff World bool :=
  match read layer with
  | None => ret false
  | Some layerRead =>
      try_catch
        (call (CallRead (name layer) value) ;;
         result <- onStores (layerRead value) ;;
         match result with
         | Some res =>
             if nonEmpty (predictions res) then
               setPlacePredictions (predictions res) ;;
               setIsPlacePredictionsLoading false ;;
               setLastResultFromCache (Some true) ;;
               setLastCacheLayerName (Some (name layer)) ;;
               match hitObserver with
               | Some observer =>
                   call (CallOnAfterCacheHit (name layer) value (predictions res)) ;;
                   complete (observer (name layer) value (predictions res))
               | None => ret tt
               end ;;
               ret true
             else ret false
         | None => ret false
         end)
        (* Cache layer failures are non-fatal; we just continue to the next one. *)
        (ret false)
  end.

(** The rest of [getPlacePredictions] from the cache loop on: the layers
    still to probe (step 1), then the Google fallback (step 2). *)
Fixpoint getPlacePredictions_loop (hitObserver : option CacheHitObserver)
    (value : string) (layers : list CacheLayer) : Eff World unit :=
  match layers with
  | [] =>
      (* Step 2: no cache hit; defer to Google via the underlying hook. *)
      setLastResultFromCache (Some false) ;;
      setLastCacheLayerName None ;;
      setLastInputRef (Some value) ;;
      call (CallBaseGetPlacePredictions value)
  | layer :: rest =>
      returned <- probeLayer hitObserver value layer ;;
      if returned : bool then ret tt
      else getPlacePredictions_loop hitObserver value rest
  end.

(** getPlacePredictions orchestrates the cache pipeline and only falls back
    to Google if no cache layer returns data. *)
Definition getPlacePredictions (options : Options) (input : option string)
    : Eff World unit :=
  let value := default "" input in
  let normalized := normalizeInput value in
  match normalized with
  | EmptyString =>
      setPlacePredictions [] ;;
      setIsPlacePredictionsLoading false ;;
      setLastResultFromCache None ;;
      setLastCacheLayerName None ;;
      (* Forward the empty input to the underlying hook so it can reset itself. *)
      call (CallBaseGetPlacePredictions value)
  | _ =>
      setIsPlacePredictionsLoading true ;;
      getPlacePredictions_loop (onAfterCacheHit options) value (orderedLayers options)
  end.

(** The write-back loop of the effect, then the Google-result observer. *)
Fixpoint writeBack (resultObserver : option GoogleResultObserver) (input : string)
    (basePredictions : list AutocompletePrediction) (layers : list CacheLayer)
    : Eff World unit :=
  match layers with
  | [] =>
      match resultObserver with
      | Some observer =>
          call (CallOnAfterGoogleResult input basePredictions) ;;
          complete (observer input basePredictions)
      | None => ret tt
      end
  | layer :: rest =>
      match write layer with
      | None => writeBack resultObserver input basePredictions rest
      | Some layerWrite =>
          try_catch
            (call (CallWrite (name layer) input basePredictions) ;;
             onStores (layerWrite input basePredictions))
            (* Ignore cache write errors so that Google results still flow through. *)
            (ret tt) ;;
          writeBack resultObserver input basePredictions rest
      end
  end.

(** The effect that runs when the underlying hook updates: it mirrors the
    predictions and the loading flag of the underlying hook into local state
    and, if the last call was a Google request, persists the predictions
    into all cache layers that expose a write. *)
Definition basePredictionsEffect (options : Options)
    (basePlacePredictions : option (list AutocompletePrediction))
    (baseIsLoading : bool) : Eff World unit :=
  let basePredictions := default [] basePlacePredictions in
  let baseLoading := baseIsLoading in
  if negb (nonEmpty basePredictions) && negb baseLoading then
    setIsPlacePredictionsLoading false ;;
    setPlacePredictions []
  else
    setPlacePredictions basePredictions ;;
    setIsPlacePredictionsLoading baseLoading ;;
    fromCache <- gets (fun w => lastResultFromCache (service w)) ;;
    if negb (nonEmpty (orderedLayers options))
       || negb (bool_decide (fromCache = Some false))
    then ret tt
    else
      input <- gets (fun w => lastInputRef (service w)) ;;
      match input with
      | Some (String c rest) =>
          if negb (nonEmpty basePredictions) then ret tt
          else detach (writeBack (onAfterGoogleResult options)
                                 (String c rest) basePredictions
                                 (orderedLayers options))
      | _ => ret tt
      end.

(** ** [useFirebaseGoogleAddress] *)

(** What [selectPrediction] resolves to. *)
Record Selection := {
  place : option PlaceResult;
  fromCache : bool;
  cacheLayerName : option string
}.

Definition noSelection : Selection :=
  {| place := None; fromCache := false; cacheLayerName := None |}.

(** The promise around [placesService.getDetails]: the result when the
    status is OK and a result came with it, [null] otherwise. *)
Definition getDetailsPromise (svc : PlacesService) (placeId : string)
    : Eff World (option PlaceResult) :=
  call (CallGetDetails placeId) ;;
  answer <- complete (getDetails svc placeId) ;;
  match answer with
  | (Some result, OK) => ret (Some result)
  | _ => ret None
  end.

(** The record written back for a fetched place. *)
Definition placeDoc (p : PlaceResult) : DocData :=
  {| normalizedInput := None;
     prediction := None;
     rawPlace := Some p;
     formattedAddress := Some (formatted_address p);
     docLocation :=
       Some (match geometry p with
             | Some g =>
                 match location g with
                 | Some l => Some {| lat := lat l; lng := lng l |}
                 | None => None
                 end
             | None => None
             end);
     updatedAt := Some ServerTimestamp |}.

(** The collection [selectPrediction] works on: the configured path, or the
    default one. *)
Definition detailCollection (options : Options) : string :=
  default DEFAULT_COLLECTION_PATH
          (match firebase options with
           | Some cfg => collectionPath cfg
           | None => None
           end).

(** Helper that resolves a full place object from either Firebase cache or
    Google Places details endpoint.  The body of the [try] yields the value
    it returned. *)
Definition selectPrediction (options : Options) (base : Base)
    (prediction : option AutocompletePrediction) : Eff World Selection :=
  match prediction with
  | Some {| place_id := Some (String c rest) |} =>
      let placeId := String c rest in
      setIsSelecting true ;;
      try_catch
        (let firestore := match firebase options with
                          | Some cfg => firestore cfg
                          | None => None
                          end in
         let collectionPath := detailCollection options in
         (* Step 1: try to read full place details from Firebase by placeId. *)
         cached <-
           match firestore with
           | Some fs =>
               snap <- onStores (getDoc fs collectionPath placeId) ;;
               match snap with
               | Some data => ret (rawPlace data)
               | None => ret None
               end
           | None => ret None
           end ;;
         match cached with
         | Some stored =>
             setSelectedPlace (Some stored) ;;
             setIsSelecting false ;;
             ret {| place := Some stored; fromCache := true;
                    cacheLayerName := Some "firebase" |}
         | None =>
             (* Step 2: fall back to Google Places details API. *)
             match placesService base with
             | None =>
                 setIsSelecting false ;;
                 ret noSelection
             | Some svc =>
                 fetched <- getDetailsPromise svc placeId ;;
                 match fetched with
                 | None =>
                     setIsSelecting false ;;
                     ret noSelection
                 | Some p =>
                     setSelectedPlace (Some p) ;;
                     (* Step 3: persist full place details back into Firebase. *)
                     match firestore with
                     | Some fs => onStores (setDoc fs collectionPath placeId (placeDoc p))
                     | None => ret tt
                     end ;;
                     setIsSelecting false ;;
                     fromCacheLast <- gets (fun w => lastResultFromCache (service w)) ;;
                     layerLast <- gets (fun w => lastCacheLayerName (service w)) ;;
                     ret {| place := Some p; fromCache := false;
                            cacheLayerName :=
                              match fromCacheLast with
                              | Some true => layerLast
                              | _ => None
                              end |}
                 end
             end
         end)
        (setIsSelecting false ;;
         ret noSelection)
  | _ => ret noSelection
  end.

(** ** Worlds and small layers to run the hooks on *)

Definition initialService : ServiceState :=
  {| placePredictions := []; isPlacePredictionsLoading := false;
     lastResultFromCache := None; lastCacheLayerName := None;
     lastInputRef := None |}.

Definition initialAddress : AddressState :=
  {| selectedPlace := None; isSelecting := false |}.

Definition storesOf (documents : gmap (string * string) DocData) : Stores :=
  {| docs := documents; randomSource := fun n => match n with 0 => "k3x9" | _ => "q7f2" end;
     randomCalls := 0; storeLog := [] |}.

Definition worldOf (documents : gmap (string * string) DocData) : World :=
  {| service := initialService; address := initialAddress;
     stores := storesOf documents; calls := [] |}.

(** A layer that answers every read with the given completion. *)
Definition constLayer (layerName : string)
    (answer : Completion (option CacheReadResult)) (writeThrows : option bool)
    : CacheLayer :=
  {| name := layerName;
     read := Some (fun _ => complete answer);
     write := match writeThrows with
              | Some true => Some (fun _ _ => throw)
              | Some false => Some (fun _ _ => ret tt)
              | None => None
              end |}.

(** A Firestore handle whose requests all succeed, and one whose writes are
    all rejected. *)
Definition reliableFirestore : Firestore :=
  {| getDocsRejects := fun _ _ => false; getDocRejects := fun _ _ => false;
     setDocRejects := fun _ _ => false |}.

Definition readOnlyFirestore : Firestore :=
  {| getDocsRejects := fun _ _ => false; getDocRejects := fun _ _ => false;
     setDocRejects := fun _ _ => true |}.

Definition parisPrediction : AutocompletePrediction :=
  {| place_id := Some "ChIJparis"; description := "Paris, France" |}.

Definition lyonPrediction : AutocompletePrediction :=
  {| place_id := Some "ChIJlyon"; description := "Lyon, France" |}.

Definition parisPlace : PlaceResult :=
  {| place_name := "Paris"; formatted_address := Some "Paris, France";
     geometry := Some {| location := Some {| lat := 48856614; lng := 2352222 |} |} |}.

Definition hit (layerName : string) (p : AutocompletePrediction)
    : Completion (option CacheReadResult) :=
  Normal (Some {| predictions := [p]; fromLayer := layerName |}).

(** ** Vocabulary of the statements *)

Definition storedParis : DocData :=
  {| normalizedInput := Some "paris"; prediction := Some parisPrediction;
     rawPlace := Some parisPlace; formattedAddress := Some (Some "Paris, France");
     docLocation := Some None; updatedAt := Some ServerTimestamp |}.

Definition firebaseOnly (fs : Firestore) : Options :=
  {| firebase := Some {| firestore := Some fs; collectionPath := None |};
     cacheLayers := []; onAfterCacheHit := None; onAfterGoogleResult := None |}.

Definition googleDetails (p : PlaceResult) : Base :=
  {| placesService := Some {| getDetails := fun _ => Normal (Some p, OK) |} |}.

Definition twoHits (observer : option CacheHitObserver) : Options :=
  {| firebase := Some {| firestore := Some reliableFirestore; collectionPath := None |};
     cacheLayers := [constLayer "memory" (hit "memory" parisPrediction) None;
                     constLayer "backend" (hit "backend" lyonPrediction) None];
     onAfterCacheHit := observer; onAfterGoogleResult := None |}.

(** The world after a layer's [read] was called and ended in stores [s']. *)
Definition afterRead (layerName value : string) (s' : Stores) (w : World) : World :=
  {| service := service w; address := address w; stores := s';
     calls := calls w ++ [CallRead layerName value] |}.

(** The world after the Google fallback (step 2). *)
Definition afterFallback (value : string) (w : World) : World :=
  {| service :=
       {| placePredictions := placePredictions (service w);
          isPlacePredictionsLoading := isPlacePredictionsLoading (service w);
          lastResultFromCache := Some false;
          lastCacheLayerName := None;
          lastInputRef := Some value |};
     address := address w; stores := stores w;
     calls := calls w ++ [CallBaseGetPlacePredictions value] |}.

(** A layer whose [read] throws, or returns absent, or returns an empty
    prediction set, is a miss: only the call of its [read] is recorded. *)
Definition isMiss (answer : Completion (option CacheReadResult)) : bool :=
  match answer with
  | Throws => true
  | Normal None => true
  | Normal (Some res) => negb (nonEmpty (predictions res))
  end.

Definition throwingLayer : CacheLayer := constLayer "memory" Throws None.

Definition emptyLayer : CacheLayer :=
  constLayer "memory" (Normal (Some {| predictions := []; fromLayer := "memory" |})) None.

Definition backendLayer : CacheLayer :=
  constLayer "backend" (hit "backend" lyonPrediction) None.

(** The world reached when every layer of a prefix of the pipeline lets the
    loop go on; [None] when one of them returned from the callback. *)
Fixpoint fallsThrough (obs : option CacheHitObserver) (value : string)
    (layers : list CacheLayer) (w : World) : option World :=
  match layers with
  | [] => Some w
  | layer :: rest =>
      match probeLayer obs value layer w with
      | (Normal false, w') => fallsThrough obs value rest w'
      | _ => None
      end
  end.

(** Whether the cache-hit observer, if there is one, returns from a call. *)
Definition observerReturns (obs : option CacheHitObserver)
    (layerName value : string) (preds : list AutocompletePrediction) : Prop :=
  match obs with
  | Some observer => observer layerName value preds = Normal tt
  | None => True
  end.

Definition observerCalls (obs : option CacheHitObserver)
    (layerName value : string) (preds : list AutocompletePrediction) : list Call :=
  match obs with
  | Some _ => [CallOnAfterCacheHit layerName value preds]
  | None => []
  end.

(** An observer that throws when told of a hit of the given layer. *)
Definition rejectsLayer (layerName : string) : CacheHitObserver :=
  fun hitLayer _ _ => if String.eqb hitLayer layerName then Throws else Normal tt.

Definition hasWrite (layer : CacheLayer) : bool :=
  match write layer with Some _ => true | None => false end.

(** The [write] calls of a write-back: one for each layer exposing [write],
    in pipeline order. *)
Definition writeCalls (input : string) (preds : list AutocompletePrediction)
    (layers : list CacheLayer) : list Call :=
  (fun layer => CallWrite (name layer) input preds) <$> List.filter hasWrite layers.

Definition resultObserverCalls (obs : option GoogleResultObserver)
    (input : string) (preds : list AutocompletePrediction) : list Call :=
  match obs with
  | Some _ => [CallOnAfterGoogleResult input preds]
  | None => []
  end.


(** The arguments of the layer reads among the calls. *)
Definition readCalls (cs : list Call) : list (string * string) :=
  omap (fun c => match c with
                 | CallRead layerName input => Some (layerName, input)
                 | _ => None
                 end) cs.

(** ** Further vocabulary *)

(** Strings made of white space only (the empty string among them). *)
Fixpoint allWhiteSpace (s : string) : bool :=
  match s with
  | EmptyString => true
  | String c rest => JS.isWhiteSpace c && allWhiteSpace rest
  end.

(** Strings that do not begin with white space. *)
Definition startsClean (s : string) : bool :=
  match s with
  | EmptyString => true
  | String c _ => negb (JS.isWhiteSpace c)
  end.

(** The record the built-in [write] stores for a prediction. *)
Definition predictionDoc (normalizedKey : string) (p : AutocompletePrediction)
    : DocData :=
  {| normalizedInput := Some normalizedKey; prediction := Some p;
     rawPlace := None; formattedAddress := None; docLocation := None;
     updatedAt := Some ServerTimestamp |}.

(** Whether the Firestore handle accepts the write a logged operation asks for. *)
Definition accepted (fs : Firestore) (op : StoreOp) : Prop :=
  match op with
  | OpSetDoc path docId _ => setDocRejects fs path docId = false
  | _ => True
  end.

Definition hasRead (layer : CacheLayer) : bool :=
  match read layer with Some _ => true | None => false end.

(** The reads a full pass over the pipeline makes: one for each layer
    exposing [read], in pipeline order, with the input as received. *)
Definition allReads (value : string) (layers : list CacheLayer)
    : list (string * string) :=
  (fun layer => (name layer, value)) <$> List.filter hasRead layers.

(** The inputs handed to the underlying prediction hook among the calls. *)
Definition baseCalls (cs : list Call) : list string :=
  omap (fun c => match c with
                 | CallBaseGetPlacePredictions input => Some input
                 | _ => None
                 end) cs.

(** The Firestore handle [selectPrediction] works with, if any. *)
Definition detailFirestore (options : Options) : option Firestore :=
  match firebase options with
  | Some cfg => firestore cfg
  | None => None
  end.

(** What the prediction pipeline last reported, as [selectPrediction]
    attaches it to a fetched place. *)
Definition inheritedLayerName (st : ServiceState) : option string :=
  match lastResultFromCache st with
  | Some true => lastCacheLayerName st
  | _ => None
  end.

(** ** The input binding of [useFirebaseGoogleAddress] *)

(** Options of [useFirebaseGoogleAddress]: those of the service hook and the
    minimum search length (3 when not given). *)
Record UseFirebaseGoogleAddressOptions := {
  serviceOptions : Options;
  minSearchLength : option nat
}.

(** The hook with its input cell: [inputValue] beside the world of the
    service hook and of the selection. *)
Record AddressHook := {
  inputValue : string;
  hookWorld : World
}.

Definition setInputValue (value : string) : Eff AddressHook unit :=
  modify (fun h => {| inputValue := value; hookWorld := hookWorld h |}).

(** Runs a callback of the service hook inside the address hook. *)
Definition onWorld {A} (m : Eff World A) : Eff AddressHook A :=
  fun h =>
    let (r, w') := m (hookWorld h) in
    (r, {| inputValue := inputValue h; hookWorld := w' |}).

(** onChange handler that keeps local input state in sync and triggers
    predictions when the minimum search length is reached. *)
Definition handleChange (options : UseFirebaseGoogleAddressOptions) (value : string)
    : Eff AddressHook unit :=
  setInputValue value ;;
  if Nat.ltb (String.length value) (default 3 (minSearchLength options)) then
    onWorld (getPlacePredictions (serviceOptions options) (Some ""))
  else
    onWorld (getPlacePredictions (serviceOptions options) (Some value)).

(** [loading] of the address hook. *)
Definition loading (h : AddressHook) : bool :=
  isPlacePredictionsLoading (service (hookWorld h))
  || isSelecting (address (hookWorld h)).

(** The world after the query "paris" was answered by the layer "memory". *)
Definition afterMemoryHit : World :=
  snd (getPlacePredictions (twoHits None) (Some "paris") (worldOf ∅)).

(** The world in which the cache loop starts: the loading flag is raised. *)
Definition startProbing (w : World) : World :=
  snd (setIsPlacePredictionsLoading true w).

(** The world after a layer's [read] ended in stores [s'] with a non-empty
    prediction set and the cache-hit observer, if any, returned. *)
Definition afterHit (obs : option CacheHitObserver) (layerName value : string)
    (res : CacheReadResult) (s' : Stores) (w : World) : World :=
  {| service :=
       {| placePredictions := predictions res;
          isPlacePredictionsLoading := false;
          lastResultFromCache := Some true;
          lastCacheLayerName := Some layerName;
          lastInputRef := lastInputRef (service w) |};
     address := address w;
     stores := s';
     calls := (calls w ++ [CallRead layerName value])
              ++ observerCalls obs layerName value (predictions res) |}.

(** A layer that answers absent, and a pipeline without store made of that
    layer, a given second layer and a layer that hits. *)
Definition absentLayer : CacheLayer := constLayer "edge" (Normal None) None.

Definition failingPipeline (second : CacheLayer) : Options :=
  {| firebase := None;
     cacheLayers := [absentLayer; second;
                     constLayer "backend" (hit "backend" lyonPrediction) None];
     onAfterCacheHit := None; onAfterGoogleResult := None |}.

(** * Properties *)

(** Unfolds the monadic plumbing of a hook. *)
Ltac run_eff :=
  cbv [bind ret throw try_catch detach modify gets complete call onStores
       setPlacePredictions setIsPlacePredictionsLoading setLastResultFromCache
       setLastCacheLayerName setLastInputRef setSelectedPlace setIsSelecting
       withService withAddress];
  cbn [fst snd service address stores calls
       placePredictions isPlacePredictionsLoading lastResultFromCache
       lastCacheLayerName lastInputRef selectedPlace isSelecting].

(** ** Key normalizer *)

Lemma normalizeInput_empty : normalizeInput "" = "".
Proof. reflexivity. Qed.

Lemma normalizeInput_nonempty_arg (value : string) :
  normalizeInput value <> "" -> exists c rest, value = String c rest.
Proof.
  destruct value as [|c rest]; [intros H; now destruct H | eauto].
Qed.

(** ** Detail resolution *)

(** C9. A call of [selectPrediction] whose prediction is absent, or carries no
    (or an empty) [place_id], returns the selection with no place, not from
    cache and without layer name, and leaves the world as it was: no state
    change, no store operation, no call to the details service. *)
Theorem selectPrediction_without_identifier
    (options : Options) (base : Base)
    (prediction : option AutocompletePrediction) (w : World) :
  (prediction = None \/
   exists p, prediction = Some p /\ JS.truthy (place_id p) = false) ->
  selectPrediction options base prediction w = (Normal noSelection, w).
Proof.
  intros [-> | (p & -> & Hfalsy)]; [reflexivity |].
  destruct p as [[[|c rest]|] descr]; cbn in Hfalsy; try discriminate; reflexivity.
Qed.

Lemma selectPrediction_without_identifier_witness :
  selectPrediction
    {| firebase := Some {| firestore := Some reliableFirestore; collectionPath := None |};
       cacheLayers := []; onAfterCacheHit := None; onAfterGoogleResult := None |}
    {| placesService := Some {| getDetails := fun _ => Normal (Some parisPlace, OK) |} |}
    (Some {| place_id := Some ""; description := "Paris, France" |})
    (worldOf ∅)
  = (Normal noSelection, worldOf ∅).
Proof.
  apply selectPrediction_without_identifier.
  right. eexists. split; [reflexivity | reflexivity].
Defined.

(** C6. When the store is configured and already holds, under the prediction's
    identifier, a record carrying a detail payload, [selectPrediction]
    returns that payload with [fromCache = true] and layer name "firebase";
    the only thing it did outside the hook is the one store read: the calls
    are unchanged, so the details service was not called. *)
Theorem selectPrediction_stored_detail
    (options : Options) (base : Base) (p : AutocompletePrediction)
    (cfg : FirebasePlacesConfig) (fs : Firestore)
    (c : ascii) (rest : string) (stored : DocData) (detail : PlaceResult)
    (w : World) :
  place_id p = Some (String c rest) ->
  firebase options = Some cfg ->
  firestore cfg = Some fs ->
  getDocRejects fs (detailCollection options) (String c rest) = false ->
  docs (stores w) !! (detailCollection options, String c rest) = Some stored ->
  rawPlace stored = Some detail ->
  selectPrediction options base (Some p) w =
    (Normal {| place := Some detail; fromCache := true;
               cacheLayerName := Some "firebase" |},
     {| service := service w;
        address := {| selectedPlace := Some detail; isSelecting := false |};
        stores := logOp (OpGetDoc (detailCollection options) (String c rest)) (stores w);
        calls := calls w |}).
Proof.
  intros Hid Hcfg Hfs Hok Hdoc Hraw.
  destruct p as [pid descr]. cbn in Hid. subst pid.
  unfold selectPrediction. rewrite Hcfg, Hfs.
  run_eff. unfold getDoc. rewrite Hok, Hdoc. cbn. rewrite Hraw. reflexivity.
Qed.

Lemma selectPrediction_stored_detail_witness :
  selectPrediction (firebaseOnly reliableFirestore) (googleDetails parisPlace)
    (Some parisPrediction)
    (worldOf {[ ("maps_addresses", "ChIJparis") := storedParis ]})
  = (Normal {| place := Some parisPlace; fromCache := true;
               cacheLayerName := Some "firebase" |},
     {| service := initialService;
        address := {| selectedPlace := Some parisPlace; isSelecting := false |};
        stores := logOp (OpGetDoc "maps_addresses" "ChIJparis")
                        (storesOf {[ ("maps_addresses", "ChIJparis") := storedParis ]});
        calls := [] |}).
Proof.
  apply (selectPrediction_stored_detail (firebaseOnly reliableFirestore)
           (googleDetails parisPlace) parisPrediction
           {| firestore := Some reliableFirestore; collectionPath := None |}
           reliableFirestore "C"%char "hIJparis" storedParis parisPlace
           (worldOf {[ ("maps_addresses", "ChIJparis") := storedParis ]}));
    vm_compute; reflexivity.
Defined.

(** When the details service delivers a place and the write-back [setDoc] is
    rejected, the rejection is caught by the [catch] around the whole
    resolution: the place already stored in [selectedPlace] is not returned. *)
Lemma selectPrediction_write_rejected
    (options : Options) (base : Base) (p : AutocompletePrediction)
    (cfg : FirebasePlacesConfig) (fs : Firestore) (svc : PlacesService)
    (c : ascii) (rest : string) (fetched : PlaceResult) (w : World) :
  place_id p = Some (String c rest) ->
  firebase options = Some cfg ->
  firestore cfg = Some fs ->
  getDocRejects fs (detailCollection options) (String c rest) = false ->
  docs (stores w) !! (detailCollection options, String c rest) = None ->
  placesService base = Some svc ->
  getDetails svc (String c rest) = Normal (Some fetched, OK) ->
  setDocRejects fs (detailCollection options) (String c rest) = true ->
  let r := selectPrediction options base (Some p) w in
  fst r = Normal noSelection /\
  selectedPlace (address (snd r)) = Some fetched /\
  docs (stores (snd r)) = docs (stores w).
Proof.
  intros Hid Hcfg Hfs Hget Hdoc Hsvc Hdet Hset.
  destruct p as [pid descr]. cbn in Hid. subst pid.
  unfold selectPrediction. rewrite Hcfg, Hfs, Hsvc.
  unfold getDetailsPromise. run_eff. unfold getDoc, setDoc.
  rewrite Hget, Hdoc. cbn. rewrite Hdet. cbn. rewrite Hset. cbn. auto.
Qed.

(** C4 (behaviour of the code). With an empty store whose writes are rejected
    and a details service that delivers Paris, selecting the Paris prediction
    fetches the place, stores it in [selectedPlace], fails to write it back,
    and returns no place at all. *)
Theorem selectPrediction_write_failure_loses_place :
  let r := selectPrediction (firebaseOnly readOnlyFirestore)
             (googleDetails parisPlace) (Some parisPrediction) (worldOf ∅) in
  fst r = Normal {| place := None; fromCache := false; cacheLayerName := None |} /\
  selectedPlace (address (snd r)) = Some parisPlace /\
  calls (snd r) = [CallGetDetails "ChIJparis"] /\
  storeLog (stores (snd r)) =
    [OpGetDoc "maps_addresses" "ChIJparis";
     OpSetDoc "maps_addresses" "ChIJparis" (placeDoc parisPlace)].
Proof. vm_compute. repeat split. Qed.

(** The same selection returns the fetched place when the write succeeds. *)
Example selectPrediction_write_success_returns_place :
  fst (selectPrediction (firebaseOnly reliableFirestore)
         (googleDetails parisPlace) (Some parisPrediction) (worldOf ∅))
  = Normal {| place := Some parisPlace; fromCache := false; cacheLayerName := None |}.
Proof. vm_compute. reflexivity. Qed.

(** ** Prediction pipeline *)

(** The reset branch. For every input whose normalized key is empty,
    [getPlacePredictions] sets the predictions to the empty list, the loading
    flag to false and both provenance cells to absent, and makes exactly one
    call: it hands the underlying prediction hook the input as it received
    it.  No layer is read and the stores are untouched. *)
Lemma getPlacePredictions_empty_key
    (options : Options) (input : option string) (w : World) :
  normalizeInput (default "" input) = "" ->
  getPlacePredictions options input w =
    (Normal tt,
     {| service :=
          {| placePredictions := [];
             isPlacePredictionsLoading := false;
             lastResultFromCache := None;
             lastCacheLayerName := None;
             lastInputRef := lastInputRef (service w) |};
        address := address w;
        stores := stores w;
        calls := calls w ++ [CallBaseGetPlacePredictions (default "" input)] |}).
Proof.
  intros Hempty. unfold getPlacePredictions. rewrite Hempty. reflexivity.
Qed.

Lemma getPlacePredictions_empty_key_witness :
  getPlacePredictions (twoHits None) (Some "  ") (worldOf ∅) =
    (Normal tt,
     {| service := initialService; address := initialAddress;
        stores := storesOf ∅;
        calls := [CallBaseGetPlacePredictions "  "] |}).
Proof.
  apply (getPlacePredictions_empty_key (twoHits None) (Some "  ") (worldOf ∅)).
  reflexivity.
Defined.

(** C5 (behaviour of the code). The input of two spaces has an empty
    normalized key: [getPlacePredictions] resets the predictions and the
    provenance and reads no layer, but what it hands the underlying
    prediction hook is the two spaces, not the empty input; only for the
    empty string (or an absent input) is the empty input forwarded. *)
Theorem getPlacePredictions_whitespace_forwarded_as_typed :
  normalizeInput "  " = ""
  /\ getPlacePredictions (twoHits None) (Some "  ") (worldOf ∅) =
       (Normal tt,
        {| service := initialService; address := initialAddress;
           stores := storesOf ∅;
           calls := [CallBaseGetPlacePredictions "  "] |})
  /\ CallBaseGetPlacePredictions "  " <> CallBaseGetPlacePredictions ""
  /\ calls (snd (getPlacePredictions (twoHits None) (Some "") (worldOf ∅)))
     = [CallBaseGetPlacePredictions ""]
  /\ calls (snd (getPlacePredictions (twoHits None) None (worldOf ∅)))
     = [CallBaseGetPlacePredictions ""].
Proof. vm_compute. repeat split. discriminate. Qed.

(** ** Built-in layer *)

Lemma omap_nil_iff {A B} (f : A -> option B) (l : list A) :
  omap f l = [] <-> Forall (fun x => f x = None) l.
Proof.
  induction l as [|x l IH]; cbn.
  - split; [constructor | reflexivity].
  - destruct (f x) eqn:E.
    + split; [discriminate | intros H; inversion H; congruence].
    + rewrite IH. split; [now constructor | intros H; now inversion H].
Qed.

(** The snapshot of a query: the data of the documents of the collection
    whose [normalizedInput] is the key. *)
Lemma elem_of_snapshot (s : Stores) (path key : string) (d : DocData) :
  d ∈ (snd <$> filter (fun e => matchesQuery path key e = true)
                      (map_to_list (docs s)))
  <-> exists id, docs s !! (path, id) = Some d /\ normalizedInput d = Some key.
Proof.
  rewrite list_elem_of_fmap. split.
  - intros ([[p id] d'] & -> & Hin). apply list_elem_of_filter in Hin as [Hm Hin].
    apply elem_of_map_to_list in Hin. unfold matchesQuery in Hm. cbn in Hm.
    apply andb_true_iff in Hm as [Hp Hk].
    apply bool_decide_eq_true in Hp. apply bool_decide_eq_true in Hk.
    subst p. eauto.
  - intros (id & Hdoc & Hk). exists (path, id, d). split; [reflexivity |].
    apply list_elem_of_filter. split.
    + unfold matchesQuery. cbn. apply andb_true_iff.
      split; apply bool_decide_eq_true; auto.
    + now apply elem_of_map_to_list.
Qed.

(** C10. When the store answers the query, the built-in layer's [read]
    returns absent exactly when no record of the collection with the
    normalized key carries a prediction payload: that covers the case of no
    matching record and the case of matching records that all lack the
    payload. *)
Theorem firebaseRead_absent_iff_no_payload
    (fs : Firestore) (path input : string) (s : Stores) :
  getDocsRejects fs path (normalizeInput input) = false ->
  fst (firebaseRead fs path input s) = Normal None <->
  (forall id d, docs s !! (path, id) = Some d ->
                normalizedInput d = Some (normalizeInput input) ->
                prediction d = None).
Proof.
  intros Hok. unfold firebaseRead, getDocs, bind. rewrite Hok.
  set (snapshot := snd <$> filter _ _).
  assert (Hsnap : forall d, d ∈ snapshot <->
            exists id, docs s !! (path, id) = Some d /\
                       normalizedInput d = Some (normalizeInput input))
    by (intros d; apply elem_of_snapshot).
  clearbody snapshot.
  assert (Hres : fst (match snapshot with
                      | [] => ret None
                      | _ => match omap prediction snapshot with
                             | [] => ret None
                             | _ => ret (Some {| predictions := omap prediction snapshot;
                                                 fromLayer := "firebase" |})
                             end
                      end (logOp (OpGetDocs path (normalizeInput input)) s))
                 = Normal None <-> omap prediction snapshot = []).
  { destruct snapshot as [|d0 snapshot']; [cbn; tauto |].
    destruct (omap prediction (d0 :: snapshot')) eqn:E; cbn; [tauto |].
    split; discriminate. }
  rewrite Hres, omap_nil_iff, Forall_forall. split.
  - intros Hall id d Hdoc Hk. apply Hall, Hsnap. eauto.
  - intros Hall d Hin. apply Hsnap in Hin as (id & Hdoc & Hk). eauto.
Qed.

Lemma firebaseRead_absent_iff_no_payload_witness :
  fst (firebaseRead reliableFirestore "maps_addresses" " Paris "
         (storesOf {[ ("maps_addresses", "ChIJparis") :=
                        {| normalizedInput := Some "paris"; prediction := None;
                           rawPlace := Some parisPlace;
                           formattedAddress := Some (Some "Paris, France");
                           docLocation := Some None;
                           updatedAt := Some ServerTimestamp |} ]}))
    = Normal None
  <-> (forall id d,
         ({[ ("maps_addresses", "ChIJparis") :=
               {| normalizedInput := Some "paris"; prediction := None;
                  rawPlace := Some parisPlace;
                  formattedAddress := Some (Some "Paris, France");
                  docLocation := Some None;
                  updatedAt := Some ServerTimestamp |} ]}
            : gmap (string * string) DocData) !! ("maps_addresses", id) = Some d ->
         normalizedInput d = Some (normalizeInput " Paris ") ->
         prediction d = None).
Proof.
  apply (firebaseRead_absent_iff_no_payload reliableFirestore "maps_addresses" " Paris ").
  reflexivity.
Defined.

(** ** The cache loop, one layer at a time *)

Lemma getPlacePredictions_loop_nil obs value w :
  getPlacePredictions_loop obs value [] w = (Normal tt, afterFallback value w).
Proof. reflexivity. Qed.

Lemma getPlacePredictions_loop_cons obs value layer rest w :
  getPlacePredictions_loop obs value (layer :: rest) w =
    match probeLayer obs value layer w with
    | (Normal true, w') => (Normal tt, w')
    | (Normal false, w') => getPlacePredictions_loop obs value rest w'
    | (Throws, w') => (Throws, w')
    end.
Proof.
  cbn [getPlacePredictions_loop]. unfold bind at 1.
  destruct (probeLayer obs value layer w) as [[[|]|] w']; reflexivity.
Qed.

(** No iteration of the cache loop throws: whatever the layer's [read] or
    the observer does is caught. *)
Lemma probeLayer_never_throws obs value layer w :
  fst (probeLayer obs value layer w) <> Throws.
Proof.
  unfold probeLayer. destruct (read layer) as [rd|]; [| discriminate].
  run_eff. destruct (rd value (stores w)) as [[[res|]|] s']; cbn; try discriminate.
  destruct (nonEmpty (predictions res)); cbn; try discriminate.
  destruct obs as [observer|]; cbn; try discriminate.
  destruct (observer _ _ _); cbn; discriminate.
Qed.

Lemma getPlacePredictions_loop_returns obs value layers w :
  fst (getPlacePredictions_loop obs value layers w) = Normal tt.
Proof.
  revert w. induction layers as [|layer rest IH]; intros w; [reflexivity |].
  rewrite getPlacePredictions_loop_cons.
  pose proof (probeLayer_never_throws obs value layer w) as Hnt.
  destruct (probeLayer obs value layer w) as [[[|]|] w']; cbn in *;
    [reflexivity | apply IH | congruence].
Qed.

(** [getPlacePredictions] always completes normally. *)
Lemma getPlacePredictions_returns options input w :
  fst (getPlacePredictions options input w) = Normal tt.
Proof.
  unfold getPlacePredictions.
  destruct (normalizeInput (default "" input)); [reflexivity |].
  unfold bind at 1. run_eff. apply getPlacePredictions_loop_returns.
Qed.

Lemma probeLayer_miss obs value layer layerRead w answer s' :
  read layer = Some layerRead ->
  layerRead value (stores w) = (answer, s') ->
  isMiss answer = true ->
  probeLayer obs value layer w = (Normal false, afterRead (name layer) value s' w).
Proof.
  intros Hread Hrd Hmiss. unfold probeLayer. rewrite Hread. run_eff. rewrite Hrd.
  destruct answer as [[res|]|]; cbn in *; try reflexivity.
  destruct (nonEmpty (predictions res)); [discriminate | reflexivity].
Qed.

Lemma probeLayer_no_read obs value layer w :
  read layer = None -> probeLayer obs value layer w = (Normal false, w).
Proof. intros H. unfold probeLayer. now rewrite H. Qed.

Lemma getPlacePredictions_loop_miss obs value layer layerRead rest w answer s' :
  read layer = Some layerRead ->
  layerRead value (stores w) = (answer, s') ->
  isMiss answer = true ->
  getPlacePredictions_loop obs value (layer :: rest) w =
    getPlacePredictions_loop obs value rest (afterRead (name layer) value s' w).
Proof.
  intros Hread Hrd Hmiss. rewrite getPlacePredictions_loop_cons.
  now rewrite (probeLayer_miss obs value layer layerRead w answer s').
Qed.

(** ** First hit *)

Lemma getPlacePredictions_loop_app obs value pre post w w1 :
  fallsThrough obs value pre w = Some w1 ->
  getPlacePredictions_loop obs value (pre ++ post) w =
    getPlacePredictions_loop obs value post w1.
Proof.
  revert w. induction pre as [|layer pre IH]; intros w Hft; cbn in Hft.
  - now inversion Hft.
  - cbn [app]. rewrite getPlacePredictions_loop_cons.
    destruct (probeLayer obs value layer w) as [[[|]|] w']; try discriminate.
    now apply IH.
Qed.

(** First hit wins, for an observer that returns: when the layers before
    [layer] let the loop go on and the [read] of [layer] yields a non-empty
    set, that set becomes current, the provenance is (true, the layer's
    name), the observer is told, and nothing after the layer is called. *)
Lemma getPlacePredictions_loop_first_hit
    obs value pre layer layerRead post w w1 res s' :
  fallsThrough obs value pre w = Some w1 ->
  read layer = Some layerRead ->
  layerRead value (stores w1) = (Normal (Some res), s') ->
  predictions res <> [] ->
  observerReturns obs (name layer) value (predictions res) ->
  getPlacePredictions_loop obs value (pre ++ layer :: post) w =
    (Normal tt,
     {| service :=
          {| placePredictions := predictions res;
             isPlacePredictionsLoading := false;
             lastResultFromCache := Some true;
             lastCacheLayerName := Some (name layer);
             lastInputRef := lastInputRef (service w1) |};
        address := address w1;
        stores := s';
        calls := (calls w1 ++ [CallRead (name layer) value])
                 ++ observerCalls obs (name layer) value (predictions res) |}).
Proof.
  intros Hft Hread Hrd Hne Hobs.
  rewrite (getPlacePredictions_loop_app _ _ _ _ _ _ Hft).
  rewrite getPlacePredictions_loop_cons. unfold probeLayer. rewrite Hread.
  run_eff. rewrite Hrd. cbn.
  destruct (predictions res) as [|p ps] eqn:E; [congruence |]. cbn.
  destruct obs as [observer|]; cbn in *.
  - rewrite Hobs. reflexivity.
  - now rewrite app_nil_r.
Qed.

(** ** A layer that misses, seen from [getPlacePredictions] *)

Lemma setIsPlacePredictionsLoading_startProbing w :
  setIsPlacePredictionsLoading true w = (Normal tt, startProbing w).
Proof. reflexivity. Qed.

(** [getPlacePredictions] on an input with a non-empty key raises the loading
    flag and runs the cache loop over the ordered layers; when the layers of
    a prefix let the loop go on, it is at the layers after them. *)
Lemma getPlacePredictions_from_layer options value pre later w w1 :
  normalizeInput value <> "" ->
  orderedLayers options = pre ++ later ->
  fallsThrough (onAfterCacheHit options) value pre (startProbing w) = Some w1 ->
  getPlacePredictions options (Some value) w =
    getPlacePredictions_loop (onAfterCacheHit options) value later w1.
Proof.
  intros Hkey Horder Hpre. unfold getPlacePredictions. cbn [default from_option id].
  destruct (normalizeInput value) as [|c rest]; [congruence |].
  unfold bind at 1. rewrite setIsPlacePredictionsLoading_startProbing, Horder.
  now apply getPlacePredictions_loop_app.
Qed.

(** What [getPlacePredictions] does when it reaches a layer that misses (its
    [read] throws, returns absent or returns an empty set): it goes on with
    the layers after it, so that the next layer can hit and the Google
    fallback runs when no layer is left; a layer of the same name that
    answers absent in its place gives the same run. *)
Lemma getPlacePredictions_passes_miss
    options value pre layer layerRead rest w w1 answer s' :
  normalizeInput value <> "" ->
  orderedLayers options = pre ++ layer :: rest ->
  fallsThrough (onAfterCacheHit options) value pre (startProbing w) = Some w1 ->
  read layer = Some layerRead ->
  layerRead value (stores w1) = (answer, s') ->
  isMiss answer = true ->
  getPlacePredictions options (Some value) w =
    getPlacePredictions_loop (onAfterCacheHit options) value rest
      (afterRead (name layer) value s' w1)
  /\ (rest = [] ->
      getPlacePredictions options (Some value) w =
        (Normal tt, afterFallback value (afterRead (name layer) value s' w1)))
  /\ (forall next nextRead more res s'',
        rest = next :: more ->
        read next = Some nextRead ->
        nextRead value s' = (Normal (Some res), s'') ->
        predictions res <> [] ->
        observerReturns (onAfterCacheHit options) (name next) value (predictions res) ->
        getPlacePredictions options (Some value) w =
          (Normal tt,
           afterHit (onAfterCacheHit options) (name next) value res s''
                    (afterRead (name layer) value s' w1)))
  /\ (forall others absent absentRead,
        onAfterCacheHit others = onAfterCacheHit options ->
        orderedLayers others = pre ++ absent :: rest ->
        name absent = name layer ->
        read absent = Some absentRead ->
        absentRead value (stores w1) = (Normal None, s') ->
        getPlacePredictions others (Some value) w =
          getPlacePredictions options (Some value) w).
Proof.
  intros Hkey Horder Hpre Hread Hanswer Hmiss.
  assert (Hgo : getPlacePredictions options (Some value) w =
                  getPlacePredictions_loop (onAfterCacheHit options) value rest
                    (afterRead (name layer) value s' w1)).
  { rewrite (getPlacePredictions_from_layer options value pre (layer :: rest) w w1
               Hkey Horder Hpre).
    exact (getPlacePredictions_loop_miss _ _ _ layerRead _ _ answer _ Hread Hanswer Hmiss). }
  split; [exact Hgo |]. split; [| split].
  - intros ->. rewrite Hgo. apply getPlacePredictions_loop_nil.
  - intros next nextRead more res s'' -> Hnext Hres Hne Hobs. rewrite Hgo.
    exact (getPlacePredictions_loop_first_hit (onAfterCacheHit options) value []
             next nextRead more (afterRead (name layer) value s' w1)
             (afterRead (name layer) value s' w1) res s'' eq_refl Hnext Hres Hne Hobs).
  - intros others absent absentRead Hobs Horder' Hname Habs Hnone. rewrite Hgo.
    rewrite (getPlacePredictions_from_layer others value pre (absent :: rest) w w1
               Hkey Horder') by (now rewrite Hobs).
    rewrite Hobs, <- Hname.
    exact (getPlacePredictions_loop_miss _ _ _ absentRead _ _ (Normal None) _
             Habs Hnone eq_refl).
Qed.

(** C7. Take any query with a non-empty normalized key and any pipeline in
    which the layers before [layer] let the loop go on and the [read] of
    [layer] throws.  Then [getPlacePredictions] goes on with the layers after
    it, from a world in which only the call of that [read] (and what it did
    to the stores before failing) is recorded.  Nothing is thrown to the
    caller.  When no layer is left, the Google fallback is called; when the
    next layer's [read] yields a non-empty set, that layer hits.  The run is
    the one of the same pipeline with, in place of [layer], a layer of the
    same name whose [read] returns absent. *)
Theorem layer_read_failure_is_a_miss
    (options : Options) (value : string)
    (pre : list CacheLayer) (layer : CacheLayer) (layerRead : CacheReadFn)
    (rest : list CacheLayer) (w w1 : World) (s' : Stores) :
  normalizeInput value <> "" ->
  orderedLayers options = pre ++ layer :: rest ->
  fallsThrough (onAfterCacheHit options) value pre (startProbing w) = Some w1 ->
  read layer = Some layerRead ->
  layerRead value (stores w1) = (Throws, s') ->
  getPlacePredictions options (Some value) w =
    getPlacePredictions_loop (onAfterCacheHit options) value rest
      (afterRead (name layer) value s' w1)
  /\ fst (getPlacePredictions options (Some value) w) = Normal tt
  /\ (rest = [] ->
      getPlacePredictions options (Some value) w =
        (Normal tt, afterFallback value (afterRead (name layer) value s' w1)))
  /\ (forall next nextRead more res s'',
        rest = next :: more ->
        read next = Some nextRead ->
        nextRead value s' = (Normal (Some res), s'') ->
        predictions res <> [] ->
        observerReturns (onAfterCacheHit options) (name next) value (predictions res) ->
        getPlacePredictions options (Some value) w =
          (Normal tt,
           afterHit (onAfterCacheHit options) (name next) value res s''
                    (afterRead (name layer) value s' w1)))
  /\ (forall others absent absentRead,
        onAfterCacheHit others = onAfterCacheHit options ->
        orderedLayers others = pre ++ absent :: rest ->
        name absent = name layer ->
        read absent = Some absentRead ->
        absentRead value (stores w1) = (Normal None, s') ->
        getPlacePredictions others (Some value) w =
          getPlacePredictions options (Some value) w)
  /\ (forall anyOptions anyInput w0,
        fst (getPlacePredictions anyOptions anyInput w0) = Normal tt).
Proof.
  intros Hkey Horder Hpre Hread Hthrows.
  destruct (getPlacePredictions_passes_miss options value pre layer layerRead rest
              w w1 Throws s' Hkey Horder Hpre Hread Hthrows eq_refl)
    as (Hgo & Hlast & Hnext & Habsent).
  split; [exact Hgo |].
  split; [apply getPlacePredictions_returns |].
  split; [exact Hlast |]. split; [exact Hnext |]. split; [exact Habsent |].
  intros. apply getPlacePredictions_returns.
Qed.

Lemma layer_read_failure_is_a_miss_witness :
  getPlacePredictions (failingPipeline throwingLayer) (Some "Paris") (worldOf ∅) =
    (Normal tt,
     afterHit None "backend" "Paris"
       {| predictions := [lyonPrediction]; fromLayer := "backend" |} (storesOf ∅)
       (afterRead "memory" "Paris" (storesOf ∅)
          (afterRead "edge" "Paris" (storesOf ∅) (startProbing (worldOf ∅)))))
  /\ calls (snd (getPlacePredictions (failingPipeline throwingLayer) (Some "Paris")
                   (worldOf ∅)))
     = [CallRead "edge" "Paris"; CallRead "memory" "Paris"; CallRead "backend" "Paris"]
  /\ lastCacheLayerName
       (service (snd (getPlacePredictions (failingPipeline throwingLayer) (Some "Paris")
                        (worldOf ∅))))
     = Some "backend".
Proof.
  assert (Hrun :
    getPlacePredictions (failingPipeline throwingLayer) (Some "Paris") (worldOf ∅) =
      (Normal tt,
       afterHit None "backend" "Paris"
         {| predictions := [lyonPrediction]; fromLayer := "backend" |} (storesOf ∅)
         (afterRead "memory" "Paris" (storesOf ∅)
            (afterRead "edge" "Paris" (storesOf ∅) (startProbing (worldOf ∅)))))).
  { destruct (layer_read_failure_is_a_miss (failingPipeline throwingLayer) "Paris"
                [absentLayer] throwingLayer (fun _ => complete Throws)
                [constLayer "backend" (hit "backend" lyonPrediction) None]
                (worldOf ∅)
                (afterRead "edge" "Paris" (storesOf ∅) (startProbing (worldOf ∅)))
                (storesOf ∅)
                ltac:(vm_compute; discriminate) eq_refl eq_refl eq_refl eq_refl)
      as (_ & _ & _ & Hnext & _).
    apply (Hnext (constLayer "backend" (hit "backend" lyonPrediction) None)
               (fun _ => complete (hit "backend" lyonPrediction)) []
               {| predictions := [lyonPrediction]; fromLayer := "backend" |}
               (storesOf ∅)); try reflexivity; try discriminate; exact I. }
  rewrite Hrun. repeat split.
Defined.

(** C8. Take any query with a non-empty normalized key and any pipeline in
    which the layers before [layer] let the loop go on and the [read] of
    [layer] returns a present but empty prediction set.  Then that iteration
    is no hit: it records the call of the [read] and leaves the predictions
    and the provenance cells as they were, and [getPlacePredictions] goes on
    with the layers after it.  When no layer is left, the Google fallback is
    called (provenance: not from cache, no layer); when the next layer's
    [read] yields a non-empty set, the provenance names that next layer.  The
    run is the one of the same pipeline with, in place of [layer], a layer of
    the same name whose [read] returns absent. *)
Theorem empty_prediction_set_is_a_miss
    (options : Options) (value : string)
    (pre : list CacheLayer) (layer : CacheLayer) (layerRead : CacheReadFn)
    (rest : list CacheLayer) (w w1 : World) (res0 : CacheReadResult) (s' : Stores) :
  normalizeInput value <> "" ->
  orderedLayers options = pre ++ layer :: rest ->
  fallsThrough (onAfterCacheHit options) value pre (startProbing w) = Some w1 ->
  read layer = Some layerRead ->
  layerRead value (stores w1) = (Normal (Some res0), s') ->
  predictions res0 = [] ->
  getPlacePredictions options (Some value) w =
    getPlacePredictions_loop (onAfterCacheHit options) value rest
      (afterRead (name layer) value s' w1)
  /\ probeLayer (onAfterCacheHit options) value layer w1 =
       (Normal false, afterRead (name layer) value s' w1)
  /\ service (afterRead (name layer) value s' w1) = service w1
  /\ (rest = [] ->
      getPlacePredictions options (Some value) w =
        (Normal tt, afterFallback value (afterRead (name layer) value s' w1)))
  /\ (forall next nextRead more res s'',
        rest = next :: more ->
        read next = Some nextRead ->
        nextRead value s' = (Normal (Some res), s'') ->
        predictions res <> [] ->
        observerReturns (onAfterCacheHit options) (name next) value (predictions res) ->
        getPlacePredictions options (Some value) w =
          (Normal tt,
           afterHit (onAfterCacheHit options) (name next) value res s''
                    (afterRead (name layer) value s' w1)))
  /\ (forall others absent absentRead,
        onAfterCacheHit others = onAfterCacheHit options ->
        orderedLayers others = pre ++ absent :: rest ->
        name absent = name layer ->
        read absent = Some absentRead ->
        absentRead value (stores w1) = (Normal None, s') ->
        getPlacePredictions others (Some value) w =
          getPlacePredictions options (Some value) w).
Proof.
  intros Hkey Horder Hpre Hread Hres Hempty.
  assert (Hmiss : isMiss (Normal (Some res0)) = true) by (cbn; now rewrite Hempty).
  destruct (getPlacePredictions_passes_miss options value pre layer layerRead rest
              w w1 (Normal (Some res0)) s' Hkey Horder Hpre Hread Hres Hmiss)
    as (Hgo & Hlast & Hnext & Habsent).
  split; [exact Hgo |].
  split; [exact (probeLayer_miss _ _ _ layerRead _ _ _ Hread Hres Hmiss) |].
  split; [reflexivity |].
  split; [exact Hlast |]. split; [exact Hnext | exact Habsent].
Qed.

Lemma empty_prediction_set_is_a_miss_witness :
  getPlacePredictions (failingPipeline emptyLayer) (Some "Paris") (worldOf ∅) =
    (Normal tt,
     afterHit None "backend" "Paris"
       {| predictions := [lyonPrediction]; fromLayer := "backend" |} (storesOf ∅)
       (afterRead "memory" "Paris" (storesOf ∅)
          (afterRead "edge" "Paris" (storesOf ∅) (startProbing (worldOf ∅)))))
  /\ lastCacheLayerName
       (service (snd (getPlacePredictions (failingPipeline emptyLayer) (Some "Paris")
                        (worldOf ∅))))
     = Some "backend".
Proof.
  assert (Hrun :
    getPlacePredictions (failingPipeline emptyLayer) (Some "Paris") (worldOf ∅) =
      (Normal tt,
       afterHit None "backend" "Paris"
         {| predictions := [lyonPrediction]; fromLayer := "backend" |} (storesOf ∅)
         (afterRead "memory" "Paris" (storesOf ∅)
            (afterRead "edge" "Paris" (storesOf ∅) (startProbing (worldOf ∅)))))).
  { destruct (empty_prediction_set_is_a_miss (failingPipeline emptyLayer) "Paris"
                [absentLayer] emptyLayer
                (fun _ => complete (Normal (Some {| predictions := [];
                                                    fromLayer := "memory" |})))
                [constLayer "backend" (hit "backend" lyonPrediction) None]
                (worldOf ∅)
                (afterRead "edge" "Paris" (storesOf ∅) (startProbing (worldOf ∅)))
                {| predictions := []; fromLayer := "memory" |} (storesOf ∅)
                ltac:(vm_compute; discriminate) eq_refl eq_refl eq_refl eq_refl eq_refl)
      as (_ & _ & _ & _ & Hnext & _).
    apply (Hnext (constLayer "backend" (hit "backend" lyonPrediction) None)
               (fun _ => complete (hit "backend" lyonPrediction)) []
               {| predictions := [lyonPrediction]; fromLayer := "backend" |}
               (storesOf ∅)); try reflexivity; try discriminate; exact I. }
  rewrite Hrun. repeat split.
Defined.

(** C1 (behaviour of the code). Two layers that both hit, "memory" first, and
    a cache-hit observer that throws when told of the hit of "memory": the
    exception is caught by the [catch] meant for layer failures, the loop
    goes on, the [read] of "backend" is called and its hit wins; the
    provenance names "backend". *)
Theorem getPlacePredictions_observer_throw_probes_next_layer :
  let r := getPlacePredictions (twoHits (Some (rejectsLayer "memory")))
             (Some "paris") (worldOf ∅) in
  fst r = Normal tt /\
  calls (snd r) =
    [CallRead "memory" "paris";
     CallOnAfterCacheHit "memory" "paris" [parisPrediction];
     CallRead "backend" "paris";
     CallOnAfterCacheHit "backend" "paris" [lyonPrediction]] /\
  placePredictions (service (snd r)) = [lyonPrediction] /\
  lastResultFromCache (service (snd r)) = Some true /\
  lastCacheLayerName (service (snd r)) = Some "backend".
Proof. vm_compute. repeat split. Qed.

(** With an observer that throws at every hit, both hits are passed over and
    Google is called. *)
Example getPlacePredictions_observer_throw_reaches_google :
  let r := getPlacePredictions (twoHits (Some (fun _ _ _ => Throws)))
             (Some "paris") (worldOf ∅) in
  calls (snd r) =
    [CallRead "memory" "paris";
     CallOnAfterCacheHit "memory" "paris" [parisPrediction];
     CallRead "backend" "paris";
     CallOnAfterCacheHit "backend" "paris" [lyonPrediction];
     CallRead "firebase" "paris";
     CallBaseGetPlacePredictions "paris"] /\
  lastResultFromCache (service (snd r)) = Some false.
Proof. vm_compute. split; reflexivity. Qed.

(** With an observer that returns, the first hit wins. *)
Example getPlacePredictions_first_hit_memory :
  let r := getPlacePredictions (twoHits (Some (fun _ _ _ => Normal tt)))
             (Some "paris") (worldOf ∅) in
  calls (snd r) =
    [CallRead "memory" "paris";
     CallOnAfterCacheHit "memory" "paris" [parisPrediction]] /\
  lastCacheLayerName (service (snd r)) = Some "memory".
Proof. vm_compute. split; reflexivity. Qed.

(** ** Write-back *)

(** The write-back loop calls the [write] of every layer that has one, once,
    whether or not an earlier [write] threw, and does not touch the hook's
    state. *)
Lemma writeBack_calls obs input preds layers w :
  calls (snd (writeBack obs input preds layers w)) =
    calls w ++ writeCalls input preds layers ++ resultObserverCalls obs input preds
  /\ service (snd (writeBack obs input preds layers w)) = service w
  /\ address (snd (writeBack obs input preds layers w)) = address w.
Proof.
  revert w. induction layers as [|layer rest IH]; intros w.
  - cbn. destruct obs as [observer|]; run_eff.
    + destruct (observer input preds); cbn; auto.
    + rewrite app_nil_r. auto.
  - cbn [writeBack]. unfold writeCalls. cbn [List.filter]. unfold hasWrite at 1.
    destruct (write layer) as [wr|]; [| apply IH].
    run_eff.
    destruct (wr input preds (stores w)) as [[[]|] s'];
      cbn [fmap list_fmap];
      match goal with
      | |- context [writeBack obs input preds rest ?w1] =>
          destruct (IH w1) as (Hc & Hs & Ha); rewrite Hc, Hs, Ha; cbn;
          rewrite <- !app_assoc; auto
      end.
Qed.

(** After [getPlacePredictions] on an input whose normalized key is not
    empty, either a layer answered, or the fallback ran and remembered the
    input as the one pending at Google. *)
Lemma getPlacePredictions_loop_provenance obs value layers w :
  let w' := snd (getPlacePredictions_loop obs value layers w) in
  lastResultFromCache (service w') = Some true \/
  (lastResultFromCache (service w') = Some false /\
   lastInputRef (service w') = Some value).
Proof.
  revert w. induction layers as [|layer rest IH]; intros w; [right; split; reflexivity |].
  cbn zeta. rewrite getPlacePredictions_loop_cons.
  destruct (probeLayer obs value layer w) as [[[|]|] w1] eqn:E.
  - left. cbn. revert E. unfold probeLayer.
    destruct (read layer) as [rd|]; [| discriminate]. run_eff.
    destruct (rd value (stores w)) as [[[res|]|] s']; cbn; try discriminate.
    destruct (nonEmpty (predictions res)); cbn; try discriminate.
    destruct obs as [observer|]; cbn.
    + destruct (observer _ _ _); cbn; [| discriminate].
      intros H; inversion H; reflexivity.
    + intros H; inversion H; reflexivity.
  - apply IH.
  - pose proof (probeLayer_never_throws obs value layer w) as Hnt.
    rewrite E in Hnt. now destruct Hnt.
Qed.

Lemma getPlacePredictions_miss_pending options input w0 w :
  normalizeInput (default "" input) <> "" ->
  snd (getPlacePredictions options input w0) = w ->
  lastResultFromCache (service w) = Some false ->
  lastInputRef (service w) = Some (default "" input).
Proof.
  intros Hkey Hrun Hmiss. subst w. unfold getPlacePredictions in *.
  destruct (normalizeInput (default "" input)) as [|c rest]; [congruence |].
  cbv [bind setIsPlacePredictionsLoading modify withService] in Hmiss |- *.
  match goal with
  | |- context [getPlacePredictions_loop ?o ?v ?l ?w1] =>
      destruct (getPlacePredictions_loop_provenance o v l w1) as [Hhit | [_ Hpend]]
  end; [cbn zeta in Hhit; congruence | exact Hpend].
Qed.





(** ** Normalized-equal queries *)





(** * Further properties of the code *)

(** ** [normalizeInput] *)

Lemma isWhiteSpace_lowerChar (c : ascii) :
  JS.isWhiteSpace (JS.lowerChar c) = JS.isWhiteSpace c.
Proof. destruct c as [[] [] [] [] [] [] [] []]; reflexivity. Qed.

Lemma lowerChar_idempotent (c : ascii) :
  JS.lowerChar (JS.lowerChar c) = JS.lowerChar c.
Proof. destruct c as [[] [] [] [] [] [] [] []]; reflexivity. Qed.

Lemma toLowerCase_idempotent (s : string) :
  JS.toLowerCase (JS.toLowerCase s) = JS.toLowerCase s.
Proof.
  induction s as [|c rest IH]; [reflexivity |].
  cbn. now rewrite lowerChar_idempotent, IH.
Qed.

Lemma toLowerCase_empty_iff (s : string) : JS.toLowerCase s = "" <-> s = "".
Proof. destruct s; cbn; split; congruence. Qed.

Lemma trimStart_toLowerCase (s : string) :
  JS.trimStart (JS.toLowerCase s) = JS.toLowerCase (JS.trimStart s).
Proof.
  induction s as [|c rest IH]; [reflexivity |].
  cbn. rewrite isWhiteSpace_lowerChar.
  destruct (JS.isWhiteSpace c); [exact IH | reflexivity].
Qed.

Lemma trimEnd_toLowerCase (s : string) :
  JS.trimEnd (JS.toLowerCase s) = JS.toLowerCase (JS.trimEnd s).
Proof.
  induction s as [|c rest IH]; [reflexivity |].
  cbn. rewrite IH, isWhiteSpace_lowerChar.
  destruct (JS.trimEnd rest); cbn; [destruct (JS.isWhiteSpace c) |]; reflexivity.
Qed.

Lemma trim_toLowerCase (s : string) :
  JS.trim (JS.toLowerCase s) = JS.toLowerCase (JS.trim s).
Proof. unfold JS.trim. now rewrite trimStart_toLowerCase, trimEnd_toLowerCase. Qed.

Lemma trimStart_startsClean (s : string) : startsClean (JS.trimStart s) = true.
Proof.
  induction s as [|c rest IH]; [reflexivity |].
  cbn. destruct (JS.isWhiteSpace c) eqn:E; [exact IH | cbn; now rewrite E].
Qed.

Lemma trimEnd_startsClean (s : string) :
  startsClean s = true -> startsClean (JS.trimEnd s) = true.
Proof.
  destruct s as [|c rest]; [reflexivity |]. cbn. intros Hc.
  destruct (JS.isWhiteSpace c) eqn:E; [discriminate |].
  destruct (JS.trimEnd rest); cbn; now rewrite E.
Qed.

Lemma startsClean_trimStart (s : string) :
  startsClean s = true -> JS.trimStart s = s.
Proof.
  destruct s as [|c rest]; [reflexivity |]. cbn.
  destruct (JS.isWhiteSpace c); [discriminate | reflexivity].
Qed.

Lemma trimEnd_idempotent (s : string) : JS.trimEnd (JS.trimEnd s) = JS.trimEnd s.
Proof.
  induction s as [|c rest IH]; [reflexivity |]. cbn.
  destruct (JS.trimEnd rest) as [|k kept] eqn:E.
  - destruct (JS.isWhiteSpace c) eqn:Ec; cbn; [reflexivity | now rewrite Ec].
  - cbn [JS.trimEnd] in *. now rewrite IH.
Qed.

Lemma trim_idempotent (s : string) : JS.trim (JS.trim s) = JS.trim s.
Proof.
  unfold JS.trim at 1.
  rewrite startsClean_trimStart
    by (unfold JS.trim; apply trimEnd_startsClean, trimStart_startsClean).
  unfold JS.trim. apply trimEnd_idempotent.
Qed.

Lemma trimStart_empty_iff (s : string) :
  JS.trimStart s = "" <-> allWhiteSpace s = true.
Proof.
  induction s as [|c rest IH]; cbn; [tauto |].
  destruct (JS.isWhiteSpace c); cbn; [exact IH | split; discriminate].
Qed.

Lemma trimEnd_empty_clean (s : string) :
  startsClean s = true -> JS.trimEnd s = "" -> s = "".
Proof.
  destruct s as [|c rest]; [reflexivity |]. cbn.
  destruct (JS.isWhiteSpace c); [discriminate |].
  destruct (JS.trimEnd rest); discriminate.
Qed.

Lemma trim_empty_iff (s : string) : JS.trim s = "" <-> allWhiteSpace s = true.
Proof.
  rewrite <- trimStart_empty_iff. unfold JS.trim. split.
  - apply trimEnd_empty_clean, trimStart_startsClean.
  - intros ->. reflexivity.
Qed.

Lemma append_cons (c : ascii) (s t : string) :
  String c s +:+ t = String c (s +:+ t).
Proof. reflexivity. Qed.

Lemma append_empty (t : string) : "" +:+ t = t.
Proof. reflexivity. Qed.

Lemma trimStart_padding (pad s : string) :
  allWhiteSpace pad = true -> JS.trimStart (pad +:+ s) = JS.trimStart s.
Proof.
  induction pad as [|c rest IH]; [reflexivity |].
  rewrite append_cons. cbn [JS.trimStart allWhiteSpace].
  intros H. apply andb_true_iff in H as [-> H]. auto.
Qed.

Lemma trimEnd_padding (s pad : string) :
  allWhiteSpace pad = true -> JS.trimEnd (s +:+ pad) = JS.trimEnd s.
Proof.
  intros Hpad.
  induction s as [|c rest IH];
    rewrite ?append_cons, ?append_empty; cbn [JS.trimEnd].
  - induction pad as [|p pad' IHp]; [reflexivity |].
    cbn [JS.trimEnd allWhiteSpace] in *.
    apply andb_true_iff in Hpad as [-> Hpad]. now rewrite IHp.
  - now rewrite IH.
Qed.

Lemma trim_padding_end (s pad : string) :
  allWhiteSpace pad = true -> JS.trim (s +:+ pad) = JS.trim s.
Proof.
  intros Hpad. unfold JS.trim.
  induction s as [|c rest IH];
    rewrite ?append_cons, ?append_empty; cbn [JS.trimStart].
  - assert (JS.trimStart pad = "") as -> by now apply trimStart_empty_iff.
    reflexivity.
  - destruct (JS.isWhiteSpace c); [exact IH |].
    rewrite <- append_cons. now apply trimEnd_padding.
Qed.

(** X1. Normalizing is idempotent: a normalized key is its own normalized
    form, so a key that was stored can be looked up again as it is. *)
Theorem normalizeInput_idempotent (value : string) :
  normalizeInput (normalizeInput value) = normalizeInput value.
Proof.
  unfold normalizeInput.
  now rewrite trim_toLowerCase, toLowerCase_idempotent, trim_idempotent.
Qed.

(** X2. The normalized key is empty exactly for the inputs made of white
    space only (the empty input among them): those, and only those, take the
    reset branch of [getPlacePredictions]. *)
Theorem normalizeInput_empty_iff (value : string) :
  normalizeInput value = "" <-> allWhiteSpace value = true.
Proof.
  unfold normalizeInput. now rewrite toLowerCase_empty_iff, trim_empty_iff.
Qed.

(** X3. White space around a query and the case of its letters do not change
    its normalized key. *)
Theorem normalizeInput_ignores_padding_and_case (before value after : string) :
  allWhiteSpace before = true ->
  allWhiteSpace after = true ->
  normalizeInput (before +:+ value +:+ after) = normalizeInput value
  /\ normalizeInput (before +:+ JS.toLowerCase value +:+ after) = normalizeInput value.
Proof.
  intros Hb Ha.
  assert (Hpad : forall v, normalizeInput (before +:+ v +:+ after) = normalizeInput v).
  { intros v. unfold normalizeInput. f_equal. unfold JS.trim at 1.
    rewrite trimStart_padding by exact Hb.
    apply (trim_padding_end v after Ha). }
  split; [apply Hpad |]. rewrite Hpad. unfold normalizeInput.
  now rewrite trim_toLowerCase, toLowerCase_idempotent.
Qed.

Lemma normalizeInput_ignores_padding_and_case_witness :
  normalizeInput ("  " +:+ "Paris" +:+ " ") = normalizeInput "Paris"
  /\ normalizeInput ("  " +:+ JS.toLowerCase "Paris" +:+ " ") = normalizeInput "Paris".
Proof.
  apply (normalizeInput_ignores_padding_and_case "  " "Paris" " "); reflexivity.
Defined.

(** ** The built-in layer: [write] *)

(** One [setDoc] of the built-in [write]: it is logged, and it merges the
    prediction record under its key unless the store rejects it. *)
Lemma firebaseWriteOne_step fs path key p s :
  exists k,
    fst (firebaseWriteOne fs path key p s) =
      (if setDocRejects fs path k then Throws else Normal tt)
    /\ storeLog (snd (firebaseWriteOne fs path key p s)) =
         storeLog s ++ [OpSetDoc path k (predictionDoc key p)]
    /\ docs (snd (firebaseWriteOne fs path key p s)) =
         (if setDocRejects fs path k then docs s
          else <[(path, k) := mergeDoc (predictionDoc key p) (docs s !! (path, k))]>
                 (docs s))
    /\ (forall c rest, place_id p = Some (String c rest) -> k = String c rest).
Proof.
  unfold firebaseWriteOne.
  destruct (place_id p) as [[|c rest]|] eqn:Eid.
  1, 3: exists (key +:+ "-" +:+ randomSource s (randomCalls s));
        cbv [bind ret randomSuffix setDoc logOp putDoc]; cbn [docs storeLog];
        destruct (setDocRejects fs path _); cbn; repeat split; discriminate.
  exists (String c rest).
  cbv [bind ret setDoc logOp putDoc]; cbn [docs storeLog].
  destruct (setDocRejects fs path _); cbn; repeat split; congruence.
Qed.

(** What [promiseAll] over the writes of a list of predictions does to the
    log and to the completion. *)
Lemma firebaseWrite_all_log fs path key preds s :
  let r := promiseAll (firebaseWriteOne fs path key <$> preds) s in
  exists ops,
    storeLog (snd r) = storeLog s ++ ops
    /\ Forall2 (fun op p => exists k, op = OpSetDoc path k (predictionDoc key p)) ops preds
    /\ (fst r = Normal tt <-> Forall (accepted fs) ops).
Proof.
  revert s. induction preds as [|p preds IH]; intros s; cbn zeta.
  - exists []. cbn. rewrite app_nil_r. repeat split; constructor.
  - cbn [fmap list_fmap promiseAll].
    destruct (firebaseWriteOne_step fs path key p s) as (k & Hr & Hlog & _ & _).
    destruct (firebaseWriteOne fs path key p s) as [r1 s1]. cbn [fst snd] in *.
    destruct (IH s1) as (ops & Hlog' & Hall & Hok). cbn zeta in *.
    exists (OpSetDoc path k (predictionDoc key p) :: ops).
    destruct (setDocRejects fs path k) eqn:Erej; subst r1; cbn [fst snd].
    + rewrite Hlog', Hlog, <- app_assoc. split; [reflexivity |].
      split; [constructor; eauto |].
      split; [discriminate |]. intros Hacc. inversion Hacc as [|? ? Hk _]; subst.
      cbn in Hk. congruence.
    + rewrite Hlog', Hlog, <- app_assoc. split; [reflexivity |].
      split; [constructor; eauto |].
      rewrite Hok. split.
      * intros Hacc. constructor; [exact Erej | exact Hacc].
      * intros Hacc. now inversion Hacc.
Qed.

(** X4. The built-in [write] asks the store for one merge-write per
    prediction, in the order of the predictions, each carrying the normalized
    query and the prediction; every one of them is attempted also when
    another is rejected, and the [write] completes normally exactly when the
    store accepted them all.  With no prediction it does nothing. *)
Theorem firebaseWrite_one_setDoc_per_prediction
    (fs : Firestore) (path input : string)
    (preds : list AutocompletePrediction) (s : Stores) :
  let r := firebaseWrite fs path input preds s in
  exists ops,
    storeLog (snd r) = storeLog s ++ ops
    /\ Forall2 (fun op p =>
                  exists k, op = OpSetDoc path k (predictionDoc (normalizeInput input) p))
               ops preds
    /\ (fst r = Normal tt <-> Forall (accepted fs) ops)
    /\ (preds = [] -> snd r = s).
Proof.
  cbn zeta. unfold firebaseWrite. destruct preds as [|p preds].
  - exists []. cbn. rewrite app_nil_r. repeat split; constructor.
  - destruct (firebaseWrite_all_log fs path (normalizeInput input) (p :: preds) s)
      as (ops & Hlog & Hall & Hok).
    exists ops. repeat split; auto; try apply Hok; discriminate.
Qed.

(** Fields of a document that the built-in [write] leaves alone. *)
Lemma mergeDoc_prediction_keeps_detail key p old :
  rawPlace (mergeDoc (predictionDoc key p) (Some old)) = rawPlace old
  /\ formattedAddress (mergeDoc (predictionDoc key p) (Some old)) = formattedAddress old
  /\ docLocation (mergeDoc (predictionDoc key p) (Some old)) = docLocation old.
Proof.
  destruct old as [n q r f l u]. destruct r, f, l; cbn; repeat split.
Qed.

(** X5. The built-in [write] never removes a document and never changes the
    detail payload of one: a record that carries a place (with its address
    and coordinates) still carries the same after any write of predictions,
    whether the write succeeded or not. *)
Theorem firebaseWrite_keeps_detail_payload
    (fs : Firestore) (path input : string)
    (preds : list AutocompletePrediction) (s : Stores)
    (key : string * string) (d : DocData) :
  docs s !! key = Some d ->
  exists d',
    docs (snd (firebaseWrite fs path input preds s)) !! key = Some d'
    /\ rawPlace d' = rawPlace d
    /\ formattedAddress d' = formattedAddress d
    /\ docLocation d' = docLocation d.
Proof.
  intros Hdoc. unfold firebaseWrite.
  destruct preds as [|p0 preds0]; [exists d; auto |].
  generalize (p0 :: preds0). clear p0 preds0. intros preds.
  revert s d Hdoc. induction preds as [|p preds IH]; intros s d Hdoc.
  - exists d. auto.
  - cbn [fmap list_fmap promiseAll].
    destruct (firebaseWriteOne_step fs path (normalizeInput input) p s)
      as (k & _ & _ & Hdocs & _).
    destruct (firebaseWriteOne fs path (normalizeInput input) p s) as [r1 s1].
    cbn [fst snd] in *.
    assert (Hstep : exists d1, docs s1 !! key = Some d1
                               /\ rawPlace d1 = rawPlace d
                               /\ formattedAddress d1 = formattedAddress d
                               /\ docLocation d1 = docLocation d).
    { rewrite Hdocs. destruct (setDocRejects fs path k); [exists d; auto |].
      destruct (decide (key = (path, k))) as [-> | Hne].
      - rewrite lookup_insert_eq, Hdoc. eexists. split; [reflexivity |].
        apply mergeDoc_prediction_keeps_detail.
      - rewrite lookup_insert_ne by congruence. exists d; auto. }
    destruct Hstep as (d1 & Hd1 & Hr & Hf & Hl).
    destruct (IH s1 d1 Hd1) as (d' & Hd' & Hr' & Hf' & Hl').
    exists d'. destruct r1; cbn [snd]; (split; [exact Hd' | split; [| split]]); congruence.
Qed.

Lemma firebaseWrite_keeps_detail_payload_witness :
  exists d',
    docs (snd (firebaseWrite reliableFirestore "maps_addresses" "Paris"
                 [parisPrediction]
                 (storesOf {[ ("maps_addresses", "ChIJparis") := placeDoc parisPlace ]})))
      !! ("maps_addresses", "ChIJparis") = Some d'
    /\ rawPlace d' = rawPlace (placeDoc parisPlace)
    /\ formattedAddress d' = formattedAddress (placeDoc parisPlace)
    /\ docLocation d' = docLocation (placeDoc parisPlace).
Proof.
  apply (firebaseWrite_keeps_detail_payload reliableFirestore "maps_addresses" "Paris"
           [parisPrediction]
           (storesOf {[ ("maps_addresses", "ChIJparis") := placeDoc parisPlace ]})
           ("maps_addresses", "ChIJparis") (placeDoc parisPlace)).
  vm_compute. reflexivity.
Defined.

(** ** The built-in layer: [read], and [write] followed by [read] *)

(** X6. When the built-in [read] returns a result, the result is labelled
    "firebase", its prediction set is not empty, and its predictions are
    exactly the prediction payloads of the records of the collection stored
    under the normalized query; the documents are left as they were. *)
Theorem firebaseRead_hit_payloads
    (fs : Firestore) (path input : string) (s : Stores) (res : CacheReadResult) :
  fst (firebaseRead fs path input s) = Normal (Some res) ->
  fromLayer res = "firebase"
  /\ predictions res <> []
  /\ (forall p, p ∈ predictions res <->
                exists id d, docs s !! (path, id) = Some d
                             /\ normalizedInput d = Some (normalizeInput input)
                             /\ prediction d = Some p)
  /\ docs (snd (firebaseRead fs path input s)) = docs s.
Proof.
  unfold firebaseRead, getDocs, bind.
  destruct (getDocsRejects fs path (normalizeInput input)); [discriminate |].
  pose proof (elem_of_snapshot s path (normalizeInput input)) as Hsnap.
  destruct (snd <$> filter _ _) as [|d0 ds] eqn:Esnap; [discriminate |].
  destruct (omap prediction (d0 :: ds)) as [|p0 ps] eqn:Eo; [discriminate |].
  cbn. intros H. inversion H; subst res; clear H. cbn [fromLayer predictions].
  split; [reflexivity |]. split; [discriminate |]. split; [| reflexivity].
  intros p. rewrite <- Eo, list_elem_of_omap. split.
  - intros (d & Hin & Hp). apply Hsnap in Hin as (id & Hdoc & Hk). eauto.
  - intros (id & d & Hdoc & Hk & Hp). exists d. split; [apply Hsnap; eauto | exact Hp].
Qed.

Lemma firebaseRead_hit_payloads_witness :
  fromLayer {| predictions := [parisPrediction]; fromLayer := "firebase" |} = "firebase"
  /\ predictions {| predictions := [parisPrediction]; fromLayer := "firebase" |} <> []
  /\ (forall p, p ∈ predictions {| predictions := [parisPrediction];
                                   fromLayer := "firebase" |} <->
                exists id d,
                  docs (storesOf {[ ("maps_addresses", "ChIJparis") := storedParis ]})
                    !! ("maps_addresses", id) = Some d
                  /\ normalizedInput d = Some (normalizeInput " PARIS")
                  /\ prediction d = Some p)
  /\ docs (snd (firebaseRead reliableFirestore "maps_addresses" " PARIS"
                  (storesOf {[ ("maps_addresses", "ChIJparis") := storedParis ]})))
     = docs (storesOf {[ ("maps_addresses", "ChIJparis") := storedParis ]}).
Proof.
  apply (firebaseRead_hit_payloads reliableFirestore "maps_addresses" " PARIS"
           (storesOf {[ ("maps_addresses", "ChIJparis") := storedParis ]})
           {| predictions := [parisPrediction]; fromLayer := "firebase" |}).
  vm_compute. reflexivity.
Defined.

Lemma mergeDoc_prediction_fields key p stored :
  normalizedInput (mergeDoc (predictionDoc key p) stored) = Some key
  /\ prediction (mergeDoc (predictionDoc key p) stored) = Some p.
Proof.
  destruct stored as [[n q r f l u]|]; [destruct n, q |]; split; reflexivity.
Qed.

Lemma promiseAll_cons_snd {S} (p : Eff S unit) (rest : list (Eff S unit)) (s : S) :
  snd (promiseAll (p :: rest) s) = snd (promiseAll rest (snd (p s))).
Proof. cbn. destruct (p s) as [[|] s1]; reflexivity. Qed.

(** Writes of predictions whose identifiers differ from [k0] leave the
    document under [k0] as it is. *)
Lemma firebaseWrite_all_other_key fs path key preds s k0 :
  (forall p, p ∈ preds -> exists c rest, place_id p = Some (String c rest)
                                         /\ String c rest <> k0) ->
  docs (snd (promiseAll (firebaseWriteOne fs path key <$> preds) s)) !! (path, k0)
  = docs s !! (path, k0).
Proof.
  revert s. induction preds as [|p preds IH]; intros s Hids; [reflexivity |].
  cbn [fmap list_fmap]. rewrite promiseAll_cons_snd.
  destruct (firebaseWriteOne_step fs path key p s) as (k & _ & _ & Hdocs & Hk).
  destruct (Hids p) as (c & rest & Hid & Hne); [left |].
  rewrite IH by (intros q Hq; apply Hids; now right).
  rewrite Hdocs. destruct (setDocRejects fs path k); [reflexivity |].
  rewrite (Hk c rest Hid). apply lookup_insert_ne. congruence.
Qed.

(** After accepted writes of predictions with pairwise different
    identifiers, each prediction is stored under its identifier with the
    normalized key. *)
Lemma firebaseWrite_all_stored fs path key preds s :
  (forall k, setDocRejects fs path k = false) ->
  Forall (fun p => JS.truthy (place_id p) = true) preds ->
  NoDup (place_id <$> preds) ->
  forall p, p ∈ preds ->
    exists k d,
      docs (snd (promiseAll (firebaseWriteOne fs path key <$> preds) s)) !! (path, k)
        = Some d
      /\ normalizedInput d = Some key /\ prediction d = Some p.
Proof.
  intros Hacc. revert s. induction preds as [|q preds IH]; intros s Hids Hnd p Hin.
  - inversion Hin.
  - cbn [fmap list_fmap] in Hnd. apply NoDup_cons in Hnd as [Hfresh Hnd].
    inversion Hids as [|? ? Hq Hids']; subst.
    cbn [fmap list_fmap]. rewrite promiseAll_cons_snd.
    destruct (firebaseWriteOne_step fs path key q s) as (k & _ & _ & Hdocs & Hk).
    rewrite Hacc in Hdocs.
    apply elem_of_cons in Hin as [-> | Hin]; [| now apply IH].
    destruct (place_id q) as [[|c rest]|] eqn:Eid; try discriminate.
    specialize (Hk c rest eq_refl). subst k.
    exists (String c rest). eexists. split; [| split].
    + rewrite firebaseWrite_all_other_key.
      * rewrite Hdocs. apply lookup_insert_eq.
      * intros p' Hp'. rewrite Forall_forall in Hids'.
        specialize (Hids' p' Hp').
        destruct (place_id p') as [[|c' rest']|] eqn:Eid'; try discriminate.
        exists c', rest'. split; [reflexivity |]. intros Heq.
        apply Hfresh. apply list_elem_of_fmap. exists p'.
        split; [congruence | exact Hp'].
    + apply mergeDoc_prediction_fields.
    + apply mergeDoc_prediction_fields.
Qed.

(** What the built-in [write] leaves in the store when every write is
    accepted and the identifiers are pairwise different. *)
Lemma firebaseWrite_stored
    (fs : Firestore) (path written : string)
    (preds : list AutocompletePrediction) (s : Stores) :
  (forall k, setDocRejects fs path k = false) ->
  Forall (fun p => JS.truthy (place_id p) = true) preds ->
  NoDup (place_id <$> preds) ->
  forall p, p ∈ preds ->
    exists k d,
      docs (snd (firebaseWrite fs path written preds s)) !! (path, k) = Some d
      /\ normalizedInput d = Some (normalizeInput written)
      /\ prediction d = Some p.
Proof.
  intros Hacc Hids Hnd p Hp. unfold firebaseWrite.
  destruct preds as [|p0 ps]; [inversion Hp |].
  now apply firebaseWrite_all_stored.
Qed.

(** The built-in [read] finds the payloads stored under the normalized
    query. *)
Lemma firebaseRead_finds
    (fs : Firestore) (path asked : string)
    (preds : list AutocompletePrediction) (s : Stores) :
  getDocsRejects fs path (normalizeInput asked) = false ->
  preds <> [] ->
  (forall p, p ∈ preds ->
     exists k d, docs s !! (path, k) = Some d
                 /\ normalizedInput d = Some (normalizeInput asked)
                 /\ prediction d = Some p) ->
  exists res,
    fst (firebaseRead fs path asked s) = Normal (Some res)
    /\ forall p, p ∈ preds -> p ∈ predictions res.
Proof.
  intros Hget Hne Hstored.
  unfold firebaseRead, getDocs, bind. rewrite Hget.
  pose proof (elem_of_snapshot s path (normalizeInput asked)) as Hsnap.
  set (snapshot := snd <$> filter _ _) in *.
  assert (Hall : forall p, p ∈ preds -> p ∈ omap prediction snapshot).
  { intros p Hp. destruct (Hstored p Hp) as (k & d & Hdoc & Hk & Hpd).
    apply list_elem_of_omap. exists d. split; [apply Hsnap; eauto | exact Hpd]. }
  destruct preds as [|p0 ps]; [congruence |].
  pose proof (Hall p0 ltac:(left)) as Hp0.
  destruct snapshot as [|d0 ds] eqn:Es; [inversion Hp0 |].
  destruct (omap prediction (d0 :: ds)) as [|q qs] eqn:Eo; [inversion Hp0 |].
  eexists. split; [reflexivity |]. cbn [predictions]. exact Hall.
Qed.

(** X7. Write then read: after the built-in [write] stored a non-empty list of
    predictions with pairwise different identifiers for a query (the store
    accepting the writes), the built-in [read] for any query with the same
    normalized form hits, and its result contains every one of those
    predictions. *)
Theorem firebaseWrite_then_firebaseRead
    (fs : Firestore) (path written asked : string)
    (preds : list AutocompletePrediction) (s : Stores) :
  normalizeInput written = normalizeInput asked ->
  (forall k, setDocRejects fs path k = false) ->
  getDocsRejects fs path (normalizeInput asked) = false ->
  preds <> [] ->
  Forall (fun p => JS.truthy (place_id p) = true) preds ->
  NoDup (place_id <$> preds) ->
  exists res,
    fst (firebaseRead fs path asked (snd (firebaseWrite fs path written preds s)))
      = Normal (Some res)
    /\ forall p, p ∈ preds -> p ∈ predictions res.
Proof.
  intros Hnorm Hacc Hget Hne Hids Hnd.
  apply firebaseRead_finds; [exact Hget | exact Hne |].
  intros p Hp. rewrite <- Hnorm.
  now apply firebaseWrite_stored.
Qed.

Lemma firebaseWrite_then_firebaseRead_witness :
  exists res,
    fst (firebaseRead reliableFirestore "maps_addresses" "paris"
           (snd (firebaseWrite reliableFirestore "maps_addresses" " Paris "
                   [parisPrediction; lyonPrediction] (storesOf ∅))))
      = Normal (Some res)
    /\ forall p, p ∈ [parisPrediction; lyonPrediction] -> p ∈ predictions res.
Proof.
  apply (firebaseWrite_then_firebaseRead reliableFirestore "maps_addresses"
           " Paris " "paris" [parisPrediction; lyonPrediction] (storesOf ∅)).
  - reflexivity.
  - reflexivity.
  - reflexivity.
  - discriminate.
  - repeat constructor.
  - cbn. apply NoDup_cons. split; [| apply NoDup_singleton].
    intros H. apply list_elem_of_singleton in H. discriminate H.
Defined.

(** ** The cache loop as a whole *)

(** What an iteration that returned from the callback leaves behind. *)
Lemma probeLayer_returned obs value layer w w1 :
  probeLayer obs value layer w = (Normal true, w1) ->
  hasRead layer = true
  /\ lastResultFromCache (service w1) = Some true
  /\ lastCacheLayerName (service w1) = Some (name layer)
  /\ isPlacePredictionsLoading (service w1) = false
  /\ placePredictions (service w1) <> []
  /\ lastInputRef (service w1) = lastInputRef (service w)
  /\ address w1 = address w.
Proof.
  unfold probeLayer, hasRead. destruct (read layer) as [rd|]; [| discriminate].
  run_eff. destruct (rd value (stores w)) as [[[res|]|] s']; cbn; try discriminate.
  destruct (predictions res) as [|p ps] eqn:Ep; cbn; try discriminate.
  destruct obs as [observer|]; cbn.
  - destruct (observer _ _ _); cbn; [| discriminate].
    intros H; inversion H; cbn. repeat split; discriminate.
  - intros H; inversion H; cbn. repeat split; discriminate.
Qed.

(** What an iteration after which the loop goes on leaves behind: the
    provenance cells may have been set by a hit whose observer threw. *)
Lemma probeLayer_continues obs value layer w w1 :
  probeLayer obs value layer w = (Normal false, w1) ->
  lastInputRef (service w1) = lastInputRef (service w)
  /\ address w1 = address w.
Proof.
  unfold probeLayer. destruct (read layer) as [rd|].
  2: { intros H; inversion H; auto. }
  run_eff. destruct (rd value (stores w)) as [[[res|]|] s']; cbn;
    try (intros H; inversion H; cbn; auto; fail).
  destruct (nonEmpty (predictions res)); cbn;
    try (intros H; inversion H; cbn; auto; fail).
  destruct obs as [observer|]; cbn; [| discriminate].
  destruct (observer _ _ _); cbn; [discriminate |].
  intros H; inversion H; cbn; auto.
Qed.

(** The calls of one iteration: the read, if the layer has one, and at most
    the observer after it. *)
Lemma probeLayer_calls obs value layer w :
  readCalls (calls (snd (probeLayer obs value layer w))) =
    readCalls (calls w) ++ allReads value [layer]
  /\ baseCalls (calls (snd (probeLayer obs value layer w))) = baseCalls (calls w).
Proof.
  unfold probeLayer, allReads, hasRead, readCalls, baseCalls. cbn [List.filter].
  destruct (read layer) as [rd|]; cbn [fmap list_fmap].
  2: { cbn. now rewrite app_nil_r. }
  run_eff. destruct (rd value (stores w)) as [[[res|]|] s']; cbn [fst snd calls];
    try (rewrite !omap_app; cbn; rewrite ?app_nil_r; auto; fail).
  destruct (nonEmpty (predictions res)); cbn [fst snd calls];
    try (rewrite !omap_app; cbn; rewrite ?app_nil_r; auto; fail).
  destruct obs as [observer|]; cbn [fst snd calls];
    [destruct (observer _ _ _); cbn [fst snd calls] |];
    rewrite !omap_app; cbn; rewrite ?app_nil_r; auto.
Qed.

Lemma allReads_cons value layer rest :
  allReads value (layer :: rest) = allReads value [layer] ++ allReads value rest.
Proof.
  unfold allReads. cbn [List.filter]. destruct (hasRead layer); reflexivity.
Qed.

(** X8. Whatever the layers and the observer do, the reads of one run of the
    cache loop are an initial segment of the reads of the layers exposing
    [read], in pipeline order, each with the input as received: no layer is
    read twice or out of order.  When the run ends at the Google fallback,
    every such layer was read. *)
Theorem getPlacePredictions_loop_reads_in_order
    (obs : option CacheHitObserver) (value : string)
    (layers : list CacheLayer) (w : World) :
  let w' := snd (getPlacePredictions_loop obs value layers w) in
  (exists n, readCalls (calls w') =
               readCalls (calls w) ++ take n (allReads value layers))
  /\ (lastResultFromCache (service w') = Some false ->
      readCalls (calls w') = readCalls (calls w) ++ allReads value layers).
Proof.
  revert w. induction layers as [|layer rest IH]; intros w; cbn zeta.
  - split; [exists 0 |].
    all: cbn; unfold readCalls; rewrite omap_app; cbn; now rewrite !app_nil_r.
  - rewrite getPlacePredictions_loop_cons, allReads_cons.
    destruct (probeLayer_calls obs value layer w) as [Hreads _].
    pose proof (probeLayer_never_throws obs value layer w) as Hnt.
    destruct (probeLayer obs value layer w) as [[[|]|] w1] eqn:E;
      cbn [fst snd] in *; [| | congruence].
    + apply probeLayer_returned in E as (_ & Hhit & _).
      split; [| congruence].
      exists (length (allReads value [layer])).
      now rewrite Hreads, take_app_length.
    + destruct (IH w1) as [(n & Hn) Hall]. cbn zeta in *. split.
      * exists (length (allReads value [layer]) + n).
        rewrite Hn, Hreads, <- app_assoc. f_equal.
        now rewrite take_app_add.
      * intros Hmiss. rewrite (Hall Hmiss), Hreads. now rewrite <- app_assoc.
Qed.

(** The base hook is called once by the fallback and never by the loop. *)
Lemma getPlacePredictions_loop_baseCalls obs value layers w :
  let w' := snd (getPlacePredictions_loop obs value layers w) in
  baseCalls (calls w') =
    baseCalls (calls w) ++
    match lastResultFromCache (service w') with
    | Some true => []
    | _ => [value]
    end.
Proof.
  revert w. induction layers as [|layer rest IH]; intros w; cbn zeta.
  - cbn. unfold baseCalls. now rewrite omap_app.
  - rewrite getPlacePredictions_loop_cons.
    destruct (probeLayer_calls obs value layer w) as [_ Hbase].
    pose proof (probeLayer_never_throws obs value layer w) as Hnt.
    destruct (probeLayer obs value layer w) as [[[|]|] w1] eqn:E;
      cbn [fst snd] in *; [| | congruence].
    + apply probeLayer_returned in E as (_ & -> & _). now rewrite app_nil_r.
    + rewrite <- Hbase. apply IH.
Qed.

(** X9. Exactly one of "a cache layer answered" and "the underlying
    prediction hook was called" happens in a run of [getPlacePredictions]:
    the hook is called once, with the input as received, unless the run ends
    with the provenance "from cache", and then it is not called at all. *)
Theorem getPlacePredictions_base_call_or_hit
    (options : Options) (input : option string) (w : World) :
  let w' := snd (getPlacePredictions options input w) in
  baseCalls (calls w') =
    baseCalls (calls w) ++
    match lastResultFromCache (service w') with
    | Some true => []
    | _ => [default "" input]
    end.
Proof.
  cbn zeta. unfold getPlacePredictions.
  destruct (normalizeInput (default "" input)).
  - cbn. unfold baseCalls. now rewrite omap_app.
  - cbv [bind setIsPlacePredictionsLoading modify withService].
    match goal with
    | |- context [getPlacePredictions_loop ?o ?v ?l ?w1] =>
        apply (getPlacePredictions_loop_baseCalls o v l w1)
    end.
Qed.

(** The provenance cells after a run of the loop. *)
Lemma getPlacePredictions_loop_provenance_cells obs value layers w :
  let w' := snd (getPlacePredictions_loop obs value layers w) in
  (lastResultFromCache (service w') = Some true
   /\ (exists layer, layer ∈ layers /\ hasRead layer = true
                     /\ lastCacheLayerName (service w') = Some (name layer))
   /\ isPlacePredictionsLoading (service w') = false
   /\ placePredictions (service w') <> []
   /\ lastInputRef (service w') = lastInputRef (service w))
  \/ (lastResultFromCache (service w') = Some false
      /\ lastCacheLayerName (service w') = None
      /\ lastInputRef (service w') = Some value).
Proof.
  revert w. induction layers as [|layer rest IH]; intros w; cbn zeta.
  - right. cbn. auto.
  - rewrite getPlacePredictions_loop_cons.
    pose proof (probeLayer_never_throws obs value layer w) as Hnt.
    destruct (probeLayer obs value layer w) as [[[|]|] w1] eqn:E;
      cbn [fst snd] in *; [| | congruence].
    + apply probeLayer_returned in E as (Hr & Hc & Hn & Hl & Hp & Hi & _).
      left. repeat split; auto. exists layer. repeat split; auto. left.
    + apply probeLayer_continues in E as [Hi _].
      destruct (IH w1) as [(Hc & (l & Hin & Hr & Hn) & Hl & Hp & Hi') | Hmiss];
        cbn zeta in *; [left | right; exact Hmiss].
      repeat split; auto; [| congruence]. exists l. repeat split; auto. now right.
Qed.

(** X10. After any run of [getPlacePredictions] the provenance is coherent.
    Either it says "from cache": then the layer name is the name of a layer
    of the pipeline exposing [read], the predictions are not empty and the
    loading flag is down.  Or it says "not from cache": then there is no
    layer name and the input is remembered as pending at Google.  Or it is
    absent: then there is no layer name, no prediction, the loading flag is
    down, and the input was white space only. *)
Theorem getPlacePredictions_provenance_coherent
    (options : Options) (input : option string) (w : World) :
  let w' := snd (getPlacePredictions options input w) in
  match lastResultFromCache (service w') with
  | Some true =>
      (exists layer, layer ∈ orderedLayers options /\ hasRead layer = true
                     /\ lastCacheLayerName (service w') = Some (name layer))
      /\ placePredictions (service w') <> []
      /\ isPlacePredictionsLoading (service w') = false
  | Some false =>
      lastCacheLayerName (service w') = None
      /\ lastInputRef (service w') = Some (default "" input)
  | None =>
      lastCacheLayerName (service w') = None
      /\ placePredictions (service w') = []
      /\ isPlacePredictionsLoading (service w') = false
      /\ allWhiteSpace (default "" input) = true
  end.
Proof.
  cbn zeta. unfold getPlacePredictions.
  destruct (normalizeInput (default "" input)) eqn:Ekey.
  - cbn. repeat split. unfold normalizeInput in Ekey.
    apply (proj1 (toLowerCase_empty_iff _)) in Ekey.
    exact (proj1 (trim_empty_iff _) Ekey).
  - cbv [bind setIsPlacePredictionsLoading modify withService].
    match goal with
    | |- context [getPlacePredictions_loop ?o ?v ?l ?w1] =>
        destruct (getPlacePredictions_loop_provenance_cells o v l w1)
          as [(Hc & Hl & Hload & Hp & _) | (Hc & Hn & Hi)]
    end; cbn zeta in *; rewrite Hc; auto.
Qed.

(** ** Inert layers *)

Lemma writeBack_cons obs input preds layer rest w :
  writeBack obs input preds (layer :: rest) w =
    match write layer with
    | None => writeBack obs input preds rest w
    | Some layerWrite =>
        writeBack obs input preds rest
          {| service := service w; address := address w;
             stores := snd (layerWrite input preds (stores w));
             calls := calls w ++ [CallWrite (name layer) input preds] |}
    end.
Proof.
  cbn [writeBack]. destruct (write layer) as [wr|]; [| reflexivity].
  run_eff. destruct (wr input preds (stores w)) as [[[]|] s']; reflexivity.
Qed.

(** X11. A layer with neither [read] nor [write] is inert: wherever it stands
    in the pipeline, the cache loop and the write-back behave as if it were
    not there. *)
Theorem inert_layer_is_skipped
    (obs : option CacheHitObserver) (resultObs : option GoogleResultObserver)
    (value : string) (preds : list AutocompletePrediction)
    (before after : list CacheLayer) (layer : CacheLayer) (w : World) :
  read layer = None ->
  write layer = None ->
  getPlacePredictions_loop obs value (before ++ layer :: after) w =
    getPlacePredictions_loop obs value (before ++ after) w
  /\ writeBack resultObs value preds (before ++ layer :: after) w =
       writeBack resultObs value preds (before ++ after) w.
Proof.
  intros Hread Hwrite. split.
  - revert w. induction before as [|l before IH]; intros w; cbn [app].
    + rewrite getPlacePredictions_loop_cons.
      now rewrite (probeLayer_no_read obs value layer w Hread).
    + rewrite !getPlacePredictions_loop_cons.
      destruct (probeLayer obs value l w) as [[[|]|] w1]; auto.
  - revert w. induction before as [|l before IH]; intros w; cbn [app].
    + now rewrite writeBack_cons, Hwrite.
    + rewrite !writeBack_cons. destruct (write l); apply IH.
Qed.

Lemma inert_layer_is_skipped_witness :
  getPlacePredictions_loop None "paris"
    ([throwingLayer] ++ {| name := "idle"; read := None; write := None |} :: [backendLayer])
    (worldOf ∅)
  = getPlacePredictions_loop None "paris" ([throwingLayer] ++ [backendLayer]) (worldOf ∅)
  /\ writeBack None "paris" [parisPrediction]
       ([throwingLayer] ++ {| name := "idle"; read := None; write := None |} :: [backendLayer])
       (worldOf ∅)
     = writeBack None "paris" [parisPrediction] ([throwingLayer] ++ [backendLayer])
         (worldOf ∅).
Proof.
  apply (inert_layer_is_skipped None None "paris" [parisPrediction]
           [throwingLayer] [backendLayer]
           {| name := "idle"; read := None; write := None |} (worldOf ∅));
    reflexivity.
Defined.

(** ** The effect on updates of the underlying hook *)

(** X12. Every run of the effect completes normally and leaves the local
    predictions and loading flag equal to those of the underlying hook (no
    predictions when the hook has none), whatever the provenance is: also
    after a cache hit, whose predictions it replaces.  It never touches the
    provenance cells, the pending input or the selection state. *)
Theorem basePredictionsEffect_mirrors_base
    (options : Options) (basePlacePredictions : option (list AutocompletePrediction))
    (baseIsLoading : bool) (w : World) :
  let r := basePredictionsEffect options basePlacePredictions baseIsLoading w in
  fst r = Normal tt
  /\ placePredictions (service (snd r)) = default [] basePlacePredictions
  /\ isPlacePredictionsLoading (service (snd r)) = baseIsLoading
  /\ lastResultFromCache (service (snd r)) = lastResultFromCache (service w)
  /\ lastCacheLayerName (service (snd r)) = lastCacheLayerName (service w)
  /\ lastInputRef (service (snd r)) = lastInputRef (service w)
  /\ address (snd r) = address w.
Proof.
  cbn zeta. unfold basePredictionsEffect.
  set (basePredictions := default [] basePlacePredictions).
  remember (orderedLayers options) as layers eqn:El.
  destruct basePredictions as [|p ps]; cbn [nonEmpty negb andb].
  - destruct baseIsLoading; cbn [negb]; run_eff; [| repeat split].
    destruct (negb (nonEmpty layers) || _); cbn; [repeat split |].
    destruct (lastInputRef (service w)) as [[|c rest]|]; cbn; repeat split.
  - run_eff.
    destruct (negb (nonEmpty layers) || _); cbn; [repeat split |].
    destruct (lastInputRef (service w)) as [[|c rest]|]; cbn; try (repeat split; fail).
    match goal with
    | |- context [writeBack ?o ?i ?d ?ly ?w1] =>
        destruct (writeBack_calls o i d ly w1) as (_ & Hs & Ha); rewrite Hs, Ha
    end.
    cbn. repeat split.
Qed.

(** X13. The effect writes back only for a pending Google request: unless
    the provenance says "not from cache", a non-empty input is remembered as
    pending, the pipeline has a layer and predictions were delivered, it
    calls nothing and leaves the stores as they are. *)
Theorem basePredictionsEffect_no_write_back
    (options : Options) (basePlacePredictions : option (list AutocompletePrediction))
    (baseIsLoading : bool) (w : World) :
  lastResultFromCache (service w) <> Some false
  \/ JS.truthy (lastInputRef (service w)) = false
  \/ orderedLayers options = []
  \/ default [] basePlacePredictions = [] ->
  let r := basePredictionsEffect options basePlacePredictions baseIsLoading w in
  calls (snd r) = calls w /\ stores (snd r) = stores w.
Proof.
  intros Hguard. cbn zeta. unfold basePredictionsEffect.
  set (basePredictions := default [] basePlacePredictions) in *.
  remember (orderedLayers options) as layers eqn:El.
  destruct basePredictions as [|p ps]; cbn [nonEmpty negb andb].
  - destruct baseIsLoading; cbn [negb]; run_eff; [| auto].
    destruct (negb (nonEmpty layers) || _); cbn; [auto |].
    destruct (lastInputRef (service w)) as [[|c rest]|]; cbn; auto.
  - run_eff. destruct layers as [|l ls]; cbn [nonEmpty negb orb]; [cbn; auto |].
    destruct (lastResultFromCache (service w)) as [[|]|] eqn:Ec; cbn; auto.
    destruct (lastInputRef (service w)) as [[|c rest]|] eqn:Ei; cbn; auto.
    destruct Hguard as [H | [H | [H | H]]]; [congruence | discriminate ..].
Qed.

Lemma basePredictionsEffect_no_write_back_witness :
  let w := snd (getPlacePredictions (twoHits None) (Some "paris") (worldOf ∅)) in
  let r := basePredictionsEffect (twoHits None) (Some [lyonPrediction]) false w in
  calls (snd r) = calls w /\ stores (snd r) = stores w.
Proof.
  apply (basePredictionsEffect_no_write_back (twoHits None) (Some [lyonPrediction]) false
           (snd (getPlacePredictions (twoHits None) (Some "paris") (worldOf ∅)))).
  left. vm_compute. discriminate.
Defined.

(** ** Detail resolution, path by path *)

(** Splits a run of [selectPrediction] into its paths: store configured or
    not, read rejected or not, record and payload present or not, details
    service present or not, its answer, write rejected or not. *)
Ltac select_simpl :=
  run_eff;
  cbn [docs storeLog randomSource randomCalls logOp putDoc
       place fromCache cacheLayerName noSelection].

Ltac select_step :=
  match goal with
  | |- context [firebase ?o] => destruct (firebase o) eqn:?
  | |- context [firestore ?c] => destruct (firestore c) eqn:?
  | |- context [getDocRejects ?f ?p ?k] => destruct (getDocRejects f p k) eqn:?
  | |- context [docs ?s !! ?k] => destruct (docs s !! k) eqn:?
  | |- context [rawPlace ?d] => destruct (rawPlace d) eqn:?
  | |- context [placesService ?b] => destruct (placesService b) eqn:?
  | |- context [getDetails ?s ?k] => destruct (getDetails s k) as [[[?|] []]|] eqn:?
  | |- context [setDocRejects ?f ?p ?k] => destruct (setDocRejects f p k) eqn:?
  end.

Ltac select_paths :=
  unfold selectPrediction, detailFirestore, getDetailsPromise, getDoc, setDoc;
  select_simpl; repeat (select_step; select_simpl).

(** X14. [selectPrediction] on a prediction that has an identifier always
    resolves to a value (no failure of the store or of the details service
    reaches the caller), lowers the in-flight flag it raised, and never
    touches the state of the prediction pipeline. *)
Theorem selectPrediction_settles
    (options : Options) (base : Base) (p : AutocompletePrediction)
    (c : ascii) (rest : string) (w : World) :
  place_id p = Some (String c rest) ->
  let r := selectPrediction options base (Some p) w in
  (exists sel, fst r = Normal sel)
  /\ isSelecting (address (snd r)) = false
  /\ service (snd r) = service w.
Proof.
  intros Hid. destruct p as [pid descr]. cbn in Hid. subst pid. cbn zeta.
  select_paths; repeat split; eauto.
Qed.

Lemma selectPrediction_settles_witness :
  let r := selectPrediction (firebaseOnly readOnlyFirestore)
             {| placesService := Some {| getDetails := fun _ => Throws |} |}
             (Some parisPrediction) (worldOf ∅) in
  (exists sel, fst r = Normal sel)
  /\ isSelecting (address (snd r)) = false
  /\ service (snd r) = service (worldOf ∅).
Proof.
  apply (selectPrediction_settles (firebaseOnly readOnlyFirestore)
           {| placesService := Some {| getDetails := fun _ => Throws |} |}
           parisPrediction "C"%char "hIJparis" (worldOf ∅)).
  reflexivity.
Defined.

(** X15. The selection [selectPrediction] resolves to is coherent.  When it
    says "from cache", the layer name is "firebase", the place is the detail
    payload stored under the prediction's identifier, and the details service
    was not called.  When it carries no place, it is not from cache and names
    no layer.  When it carries a place, that place is the selected place of
    the hook. *)
Theorem selectPrediction_outcome_coherent
    (options : Options) (base : Base)
    (prediction : option AutocompletePrediction) (w : World) (sel : Selection) :
  fst (selectPrediction options base prediction w) = Normal sel ->
  (fromCache sel = true ->
     cacheLayerName sel = Some "firebase"
     /\ (exists p id d,
           prediction = Some p /\ place_id p = Some id
           /\ docs (stores w) !! (detailCollection options, id) = Some d
           /\ rawPlace d = place sel /\ place sel <> None)
     /\ calls (snd (selectPrediction options base prediction w)) = calls w)
  /\ (place sel = None -> fromCache sel = false /\ cacheLayerName sel = None)
  /\ (forall pl, place sel = Some pl ->
        selectedPlace (address (snd (selectPrediction options base prediction w)))
          = Some pl).
Proof.
  destruct prediction as [[[[|c rest]|] descr]|];
    try (cbn; intros H; inversion H; cbn; repeat split; discriminate).
  select_paths; intros H; inversion H; subst sel;
    cbn [noSelection place fromCache cacheLayerName];
    (split;
     [intros Hf; try discriminate Hf
     | split;
       [intros Hp; try discriminate Hp; split; reflexivity
       | intros pl Hpl; try discriminate Hpl; try congruence]]).
  split_and!; try reflexivity.
  eexists _, _, _. split_and!; eauto.
Qed.

Lemma selectPrediction_outcome_coherent_witness :
  (fromCache {| place := Some parisPlace; fromCache := true;
                cacheLayerName := Some "firebase" |} = true ->
     cacheLayerName {| place := Some parisPlace; fromCache := true;
                       cacheLayerName := Some "firebase" |} = Some "firebase"
     /\ (exists p id d,
           Some parisPrediction = Some p /\ place_id p = Some id
           /\ docs (stores (worldOf {[ ("maps_addresses", "ChIJparis") := storedParis ]}))
                !! (detailCollection (firebaseOnly reliableFirestore), id) = Some d
           /\ rawPlace d = place {| place := Some parisPlace; fromCache := true;
                                    cacheLayerName := Some "firebase" |}
           /\ place {| place := Some parisPlace; fromCache := true;
                       cacheLayerName := Some "firebase" |} <> None)
     /\ calls (snd (selectPrediction (firebaseOnly reliableFirestore)
                      (googleDetails parisPlace) (Some parisPrediction)
                      (worldOf {[ ("maps_addresses", "ChIJparis") := storedParis ]})))
        = calls (worldOf {[ ("maps_addresses", "ChIJparis") := storedParis ]}))
  /\ (place {| place := Some parisPlace; fromCache := true;
               cacheLayerName := Some "firebase" |} = None ->
      fromCache {| place := Some parisPlace; fromCache := true;
                   cacheLayerName := Some "firebase" |} = false
      /\ cacheLayerName {| place := Some parisPlace; fromCache := true;
                           cacheLayerName := Some "firebase" |} = None)
  /\ (forall pl, place {| place := Some parisPlace; fromCache := true;
                          cacheLayerName := Some "firebase" |} = Some pl ->
        selectedPlace
          (address (snd (selectPrediction (firebaseOnly reliableFirestore)
                           (googleDetails parisPlace) (Some parisPrediction)
                           (worldOf {[ ("maps_addresses", "ChIJparis") := storedParis ]}))))
        = Some pl).
Proof.
  apply (selectPrediction_outcome_coherent (firebaseOnly reliableFirestore)
           (googleDetails parisPlace) (Some parisPrediction)
           (worldOf {[ ("maps_addresses", "ChIJparis") := storedParis ]})).
  vm_compute. reflexivity.
Defined.

(** X16. [selectPrediction] changes the documents of the store only when it
    returns a freshly fetched place: whenever it returns no place, or a place
    from the cache, the documents are as before. *)
Theorem selectPrediction_writes_only_fetched
    (options : Options) (base : Base)
    (prediction : option AutocompletePrediction) (w : World) (sel : Selection) :
  fst (selectPrediction options base prediction w) = Normal sel ->
  place sel = None \/ fromCache sel = true ->
  docs (stores (snd (selectPrediction options base prediction w))) = docs (stores w).
Proof.
  destruct prediction as [[[[|c rest]|] descr]|]; try reflexivity.
  select_paths; intros H Hsel; inversion H; subst sel; try reflexivity;
    cbn in Hsel; destruct Hsel; discriminate.
Qed.

Lemma selectPrediction_writes_only_fetched_witness :
  docs (stores (snd (selectPrediction (firebaseOnly reliableFirestore)
                       {| placesService := Some {| getDetails := fun _ => Normal (None, NOT_FOUND) |} |}
                       (Some parisPrediction) (worldOf ∅))))
  = docs (stores (worldOf ∅)).
Proof.
  apply (selectPrediction_writes_only_fetched (firebaseOnly reliableFirestore)
           {| placesService := Some {| getDetails := fun _ => Normal (None, NOT_FOUND) |} |}
           (Some parisPrediction) (worldOf ∅) noSelection).
  - reflexivity.
  - left. reflexivity.
Defined.

(** X17. When the store is configured and rejects the read of the record,
    [selectPrediction] resolves to no place without trying the details
    service: the rejection is caught by the [catch] around the resolution,
    and the fallback of step 2 is not reached. *)
Theorem selectPrediction_read_rejected
    (options : Options) (base : Base) (p : AutocompletePrediction)
    (c : ascii) (rest : string) (fs : Firestore) (w : World) :
  place_id p = Some (String c rest) ->
  detailFirestore options = Some fs ->
  getDocRejects fs (detailCollection options) (String c rest) = true ->
  selectPrediction options base (Some p) w =
    (Normal noSelection,
     {| service := service w;
        address := {| selectedPlace := selectedPlace (address w);
                      isSelecting := false |};
        stores := logOp (OpGetDoc (detailCollection options) (String c rest)) (stores w);
        calls := calls w |}).
Proof.
  intros Hid Hfs Hrej. destruct p as [pid descr]. cbn in Hid. subst pid.
  unfold detailFirestore in Hfs. unfold selectPrediction. rewrite Hfs.
  run_eff. unfold getDoc. rewrite Hrej. reflexivity.
Qed.

Lemma selectPrediction_read_rejected_witness :
  selectPrediction
    (firebaseOnly {| getDocsRejects := fun _ _ => false;
                     getDocRejects := fun _ _ => true;
                     setDocRejects := fun _ _ => false |})
    (googleDetails parisPlace) (Some parisPrediction) (worldOf ∅)
  = (Normal noSelection,
     {| service := initialService;
        address := {| selectedPlace := None; isSelecting := false |};
        stores := logOp (OpGetDoc "maps_addresses" "ChIJparis") (storesOf ∅);
        calls := [] |}).
Proof.
  apply (selectPrediction_read_rejected
           (firebaseOnly {| getDocsRejects := fun _ _ => false;
                            getDocRejects := fun _ _ => true;
                            setDocRejects := fun _ _ => false |})
           (googleDetails parisPlace) parisPrediction "C"%char "hIJparis"
           {| getDocsRejects := fun _ _ => false;
              getDocRejects := fun _ _ => true;
              setDocRejects := fun _ _ => false |} (worldOf ∅));
    reflexivity.
Defined.

(** A successful fetch: the cache does not answer (no store, or a store that
    holds no detail payload under the identifier and accepts the write), and
    the details service delivers a place with status OK. *)
Lemma selectPrediction_fetch_world
    options base p c rest svc pl w :
  place_id p = Some (String c rest) ->
  match detailFirestore options with
  | Some fs =>
      getDocRejects fs (detailCollection options) (String c rest) = false
      /\ (forall d, docs (stores w) !! (detailCollection options, String c rest) = Some d ->
                    rawPlace d = None)
      /\ setDocRejects fs (detailCollection options) (String c rest) = false
  | None => True
  end ->
  placesService base = Some svc ->
  getDetails svc (String c rest) = Normal (Some pl, OK) ->
  selectPrediction options base (Some p) w =
    (Normal {| place := Some pl; fromCache := false;
               cacheLayerName := inheritedLayerName (service w) |},
     {| service := service w;
        address := {| selectedPlace := Some pl; isSelecting := false |};
        stores :=
          match detailFirestore options with
          | Some _ =>
              putDoc (detailCollection options, String c rest)
                (mergeDoc (placeDoc pl)
                   (docs (stores w) !! (detailCollection options, String c rest)))
                (logOp (OpSetDoc (detailCollection options) (String c rest) (placeDoc pl))
                   (logOp (OpGetDoc (detailCollection options) (String c rest))
                      (stores w)))
          | None => stores w
          end;
        calls := calls w ++ [CallGetDetails (String c rest)] |}).
Proof.
  intros Hid Hstore Hsvc Hdet. destruct p as [pid descr]. cbn in Hid. subst pid.
  unfold selectPrediction, detailFirestore, getDetailsPromise, inheritedLayerName in *.
  rewrite Hsvc.
  destruct (firebase options) as [cfg|]; [destruct (firestore cfg) as [fs|] |].
  - destruct Hstore as (Hget & Hnone & Hset).
    run_eff. unfold getDoc, setDoc. cbn [docs logOp]. rewrite Hget. cbn [fst snd].
    destruct (docs (stores w) !! (detailCollection options, String c rest))
      as [d|] eqn:Edoc; [rewrite (Hnone d eq_refl) |];
      cbn [fst snd]; rewrite Hdet; cbn [fst snd]; rewrite Hset; cbn;
      rewrite ?Edoc; reflexivity.
  - run_eff. rewrite Hdet. reflexivity.
  - run_eff. rewrite Hdet. reflexivity.
Qed.

(** The cache answers: the store is configured, accepts the read, and holds
    a detail payload under the identifier. *)
Lemma selectPrediction_cached_world
    options base p c rest fs stored pl w :
  place_id p = Some (String c rest) ->
  detailFirestore options = Some fs ->
  getDocRejects fs (detailCollection options) (String c rest) = false ->
  docs (stores w) !! (detailCollection options, String c rest) = Some stored ->
  rawPlace stored = Some pl ->
  selectPrediction options base (Some p) w =
    (Normal {| place := Some pl; fromCache := true; cacheLayerName := Some "firebase" |},
     {| service := service w;
        address := {| selectedPlace := Some pl; isSelecting := false |};
        stores := logOp (OpGetDoc (detailCollection options) (String c rest)) (stores w);
        calls := calls w |}).
Proof.
  intros Hid Hfs Hget Hdoc Hraw. destruct p as [pid descr]. cbn in Hid. subst pid.
  unfold detailFirestore in Hfs. unfold selectPrediction. rewrite Hfs.
  run_eff. unfold getDoc. rewrite Hget, Hdoc. cbn. rewrite Hraw. reflexivity.
Qed.

(** X18. A successful fetch (the cache does not answer, the details service
    delivers a place with status OK, the store, if any, accepts the write)
    returns the fetched place as not from cache.  The layer name it reports
    is not a decision of its own: it is the layer name of the last prediction
    request when that one was served from cache, and absent otherwise.  The
    details service is called once, with the identifier, and the place is
    merged into the record under the identifier when a store is configured. *)
Theorem selectPrediction_fetch_inherits_provenance
    (options : Options) (base : Base) (p : AutocompletePrediction)
    (c : ascii) (rest : string) (svc : PlacesService) (pl : PlaceResult) (w : World) :
  place_id p = Some (String c rest) ->
  match detailFirestore options with
  | Some fs =>
      getDocRejects fs (detailCollection options) (String c rest) = false
      /\ (forall d, docs (stores w) !! (detailCollection options, String c rest) = Some d ->
                    rawPlace d = None)
      /\ setDocRejects fs (detailCollection options) (String c rest) = false
  | None => True
  end ->
  placesService base = Some svc ->
  getDetails svc (String c rest) = Normal (Some pl, OK) ->
  let r := selectPrediction options base (Some p) w in
  fst r = Normal {| place := Some pl; fromCache := false;
                    cacheLayerName :=
                      match lastResultFromCache (service w) with
                      | Some true => lastCacheLayerName (service w)
                      | _ => None
                      end |}
  /\ calls (snd r) = calls w ++ [CallGetDetails (String c rest)]
  /\ selectedPlace (address (snd r)) = Some pl
  /\ docs (stores (snd r)) =
       match detailFirestore options with
       | Some _ =>
           <[(detailCollection options, String c rest) :=
               mergeDoc (placeDoc pl)
                 (docs (stores w) !! (detailCollection options, String c rest))]>
             (docs (stores w))
       | None => docs (stores w)
       end.
Proof.
  intros Hid Hstore Hsvc Hdet. cbn zeta.
  rewrite (selectPrediction_fetch_world options base p c rest svc pl w Hid Hstore Hsvc Hdet).
  cbn [fst snd calls address selectedPlace stores]. repeat split.
  destruct (detailFirestore options); reflexivity.
Qed.

Lemma selectPrediction_fetch_inherits_provenance_witness :
  let r := selectPrediction (twoHits None) (googleDetails parisPlace)
             (Some parisPrediction) afterMemoryHit in
  fst r = Normal {| place := Some parisPlace; fromCache := false;
                    cacheLayerName := Some "memory" |}
  /\ calls (snd r) = calls afterMemoryHit ++ [CallGetDetails "ChIJparis"].
Proof.
  destruct (selectPrediction_fetch_inherits_provenance (twoHits None)
              (googleDetails parisPlace) parisPrediction "C"%char "hIJparis"
              {| getDetails := fun _ => Normal (Some parisPlace, OK) |} parisPlace
              afterMemoryHit eq_refl) as (Hr & Hc & _).
  - cbn. split; [reflexivity |]. split; [| reflexivity].
    intros d Hd. vm_compute in Hd. discriminate Hd.
  - reflexivity.
  - reflexivity.
  - split; [exact Hr | exact Hc].
Defined.

(** X19. Fetch then select again: after a successful fetch with a store
    configured, selecting the same prediction again (the store accepting the
    read) returns the same place from the cache, with layer name "firebase",
    and does not call the details service, whether one is available or not. *)
Theorem selectPrediction_fetch_then_cached
    (options : Options) (base again : Base) (p : AutocompletePrediction)
    (c : ascii) (rest : string) (fs : Firestore) (svc : PlacesService)
    (pl : PlaceResult) (w : World) :
  place_id p = Some (String c rest) ->
  detailFirestore options = Some fs ->
  getDocRejects fs (detailCollection options) (String c rest) = false ->
  (forall d, docs (stores w) !! (detailCollection options, String c rest) = Some d ->
             rawPlace d = None) ->
  setDocRejects fs (detailCollection options) (String c rest) = false ->
  placesService base = Some svc ->
  getDetails svc (String c rest) = Normal (Some pl, OK) ->
  let w1 := snd (selectPrediction options base (Some p) w) in
  let r := selectPrediction options again (Some p) w1 in
  fst r = Normal {| place := Some pl; fromCache := true;
                    cacheLayerName := Some "firebase" |}
  /\ calls (snd r) = calls w1
  /\ docs (stores (snd r)) = docs (stores w1).
Proof.
  intros Hid Hfs Hget Hnone Hset Hsvc Hdet. cbn zeta.
  rewrite (selectPrediction_fetch_world options base p c rest svc pl w Hid)
    by (try rewrite Hfs; auto).
  rewrite Hfs. cbn [snd].
  rewrite (selectPrediction_cached_world options again p c rest fs
             (mergeDoc (placeDoc pl)
                (docs (stores w) !! (detailCollection options, String c rest)))
             pl _ Hid Hfs Hget).
  - cbn. auto.
  - cbn. apply lookup_insert_eq.
  - destruct (docs (stores w) !! _) as [[n q [r|] f l u]|]; reflexivity.
Qed.

Lemma selectPrediction_fetch_then_cached_witness :
  let w1 := snd (selectPrediction (firebaseOnly reliableFirestore)
                   (googleDetails parisPlace) (Some parisPrediction) (worldOf ∅)) in
  let r := selectPrediction (firebaseOnly reliableFirestore)
             {| placesService := None |} (Some parisPrediction) w1 in
  fst r = Normal {| place := Some parisPlace; fromCache := true;
                    cacheLayerName := Some "firebase" |}
  /\ calls (snd r) = calls w1
  /\ docs (stores (snd r)) = docs (stores w1).
Proof.
  apply (selectPrediction_fetch_then_cached (firebaseOnly reliableFirestore)
           (googleDetails parisPlace) {| placesService := None |} parisPrediction
           "C"%char "hIJparis" reliableFirestore
           {| getDetails := fun _ => Normal (Some parisPlace, OK) |} parisPlace
           (worldOf ∅)); try reflexivity.
  intros d Hd. vm_compute in Hd. discriminate Hd.
Defined.

Lemma mergeDoc_place_keeps_prediction pl old :
  prediction (mergeDoc (placeDoc pl) (Some old)) = prediction old
  /\ normalizedInput (mergeDoc (placeDoc pl) (Some old)) = normalizedInput old.
Proof. destruct old as [n q r f l u]. destruct n, q; split; reflexivity. Qed.

(** The documents after a run of [selectPrediction]: unchanged, or with one
    place merged into the record under the identifier of the prediction. *)
Lemma selectPrediction_docs options base selected w :
  docs (stores (snd (selectPrediction options base selected w))) = docs (stores w)
  \/ exists pl id,
       docs (stores (snd (selectPrediction options base selected w))) =
         <[(detailCollection options, id) :=
             mergeDoc (placeDoc pl) (docs (stores w) !! (detailCollection options, id))]>
           (docs (stores w)).
Proof.
  destruct selected as [[[[|c rest]|] descr]|]; try (left; reflexivity).
  select_paths; try (left; reflexivity).
  all: right; eexists _, (String c rest);
    match goal with H : docs _ !! _ = _ |- _ => rewrite H end; reflexivity.
Qed.

(** X20. Detail resolution never removes a record and never changes the
    prediction payload or the normalized key of one: whatever path
    [selectPrediction] takes, the prediction cache of the built-in layer
    holds afterwards the payloads it held before. *)
Theorem selectPrediction_keeps_prediction_payload
    (options : Options) (base : Base)
    (selected : option AutocompletePrediction) (w : World)
    (key : string * string) (d : DocData) :
  docs (stores w) !! key = Some d ->
  exists d',
    docs (stores (snd (selectPrediction options base selected w))) !! key = Some d'
    /\ prediction d' = prediction d
    /\ normalizedInput d' = normalizedInput d.
Proof.
  intros Hdoc.
  destruct (selectPrediction_docs options base selected w) as [-> | (pl & id & ->)];
    [exists d; auto |].
  destruct (decide (key = (detailCollection options, id))) as [-> | Hne].
  - rewrite lookup_insert_eq, Hdoc. eexists. split; [reflexivity |].
    apply mergeDoc_place_keeps_prediction.
  - rewrite lookup_insert_ne by congruence. exists d; auto.
Qed.

Lemma selectPrediction_keeps_prediction_payload_witness :
  exists d',
    docs (stores (snd (selectPrediction (firebaseOnly reliableFirestore)
                         (googleDetails parisPlace) (Some parisPrediction)
                         (worldOf {[ ("maps_addresses", "ChIJparis") :=
                                       predictionDoc "paris" parisPrediction ]}))))
      !! ("maps_addresses", "ChIJparis") = Some d'
    /\ prediction d' = prediction (predictionDoc "paris" parisPrediction)
    /\ normalizedInput d' = normalizedInput (predictionDoc "paris" parisPrediction).
Proof.
  apply (selectPrediction_keeps_prediction_payload (firebaseOnly reliableFirestore)
           (googleDetails parisPlace) (Some parisPrediction)
           (worldOf {[ ("maps_addresses", "ChIJparis") :=
                         predictionDoc "paris" parisPrediction ]})
           ("maps_addresses", "ChIJparis") (predictionDoc "paris" parisPrediction)).
  vm_compute. reflexivity.
Defined.

(** ** Miss, write-back, hit *)

Lemma writeBack_nil_stores obs input preds w :
  stores (snd (writeBack obs input preds [] w)) = stores w.
Proof.
  cbn. destruct obs as [observer|]; run_eff; [| reflexivity].
  destruct (observer input preds); reflexivity.
Qed.

(** The pipeline of options with no custom layer and a configured store. *)
Lemma orderedLayers_builtin_only options cfg fs :
  firebase options = Some cfg ->
  firestore cfg = Some fs ->
  cacheLayers options = [] ->
  orderedLayers options =
    [{| name := "firebase";
        read := Some (firebaseRead fs (default DEFAULT_COLLECTION_PATH (collectionPath cfg)));
        write := Some (firebaseWrite fs (default DEFAULT_COLLECTION_PATH (collectionPath cfg))) |}].
Proof.
  intros Hcfg Hfs Hnone. unfold orderedLayers, createFirebaseLayer.
  now rewrite Hcfg, Hfs, Hnone.
Qed.

(** X21. With the built-in layer alone and a store that accepts the requests:
    a query misses and goes to Google; Google delivers a non-empty list of
    predictions with pairwise different identifiers; then any query with the
    same normalized form is answered by the built-in layer, with provenance
    (true, "firebase") and every delivered prediction among the current
    ones, without a call to the underlying prediction hook. *)
Theorem miss_then_write_back_then_hit
    (options : Options) (cfg : FirebasePlacesConfig) (fs : Firestore)
    (first second : string) (delivered : list AutocompletePrediction)
    (baseLoading : bool) (w0 : World) :
  firebase options = Some cfg ->
  firestore cfg = Some fs ->
  cacheLayers options = [] ->
  normalizeInput first <> "" ->
  normalizeInput first = normalizeInput second ->
  (forall k, setDocRejects fs (default DEFAULT_COLLECTION_PATH (collectionPath cfg)) k
             = false) ->
  getDocsRejects fs (default DEFAULT_COLLECTION_PATH (collectionPath cfg))
                 (normalizeInput second) = false ->
  delivered <> [] ->
  Forall (fun p => JS.truthy (place_id p) = true) delivered ->
  NoDup (place_id <$> delivered) ->
  (forall ps, observerReturns (onAfterCacheHit options) "firebase" second ps) ->
  let w1 := snd (getPlacePredictions options (Some first) w0) in
  lastResultFromCache (service w1) = Some false ->
  let w2 := snd (basePredictionsEffect options (Some delivered) baseLoading w1) in
  let w3 := snd (getPlacePredictions options (Some second) w2) in
  lastResultFromCache (service w3) = Some true
  /\ lastCacheLayerName (service w3) = Some "firebase"
  /\ (forall p, p ∈ delivered -> p ∈ placePredictions (service w3))
  /\ baseCalls (calls w3) = baseCalls (calls w2).
Proof.
  intros Hcfg Hfs Hnone Hkey Hnorm Hset Hget Hne Hids Hnd Hobs w1 Hmiss w2 w3.
  set (path := default DEFAULT_COLLECTION_PATH (collectionPath cfg)) in *.
  pose proof (orderedLayers_builtin_only options cfg fs Hcfg Hfs Hnone) as Hlayers.
  fold path in Hlayers.
  pose proof (getPlacePredictions_miss_pending options (Some first) w0 w1 Hkey eq_refl Hmiss)
    as Hpend. cbn [default from_option id] in Hpend.
  destruct (normalizeInput_nonempty_arg _ Hkey) as (c & rest & Hfirst).
  (* the stores after the delivery *)
  assert (Hstores : stores w2 = snd (firebaseWrite fs path first delivered (stores w1))).
  { subst w2. unfold basePredictionsEffect. rewrite Hlayers.
    destruct delivered as [|p ps]; [congruence |].
    cbn [default from_option id nonEmpty negb andb orb]. run_eff.
    rewrite Hmiss, Hpend, Hfirst.
    rewrite bool_decide_eq_true_2 by reflexivity. cbn [negb]. run_eff.
    rewrite writeBack_cons. cbn [write]. rewrite writeBack_nil_stores. reflexivity. }
  (* the read of the second query *)
  destruct (firebaseRead_finds fs path second delivered (stores w2) Hget Hne)
    as (res & Hres & Hall).
  { intros p Hp. rewrite Hstores, <- Hnorm.
    now apply firebaseWrite_stored. }
  assert (Hnonempty : predictions res <> []).
  { destruct delivered as [|p ps]; [congruence |].
    intros Hnil. specialize (Hall p ltac:(left)). rewrite Hnil in Hall. inversion Hall. }
  assert (Hkey2 : normalizeInput second <> "") by congruence.
  subst w3. unfold getPlacePredictions. cbn [default from_option id].
  destruct (normalizeInput second) as [|k kr] eqn:Ek; [congruence |].
  cbv [bind setIsPlacePredictionsLoading modify withService]. rewrite Hlayers.
  match goal with
  | |- context [getPlacePredictions_loop ?o ?v [?layer] ?w] =>
      pose proof (getPlacePredictions_loop_first_hit o v [] layer
                    (firebaseRead fs path) [] w w res
                    (snd (firebaseRead fs path second (stores w2)))
                    eq_refl eq_refl) as Hhit
  end.
  cbn [app name stores] in Hhit. rewrite Hhit; clear Hhit.
  - cbn [snd service calls lastResultFromCache lastCacheLayerName placePredictions].
    repeat split; [exact Hall |].
    unfold baseCalls. rewrite !omap_app.
    destruct (onAfterCacheHit options); cbn; now rewrite !app_nil_r.
  - rewrite <- Hres. apply surjective_pairing.
  - exact Hnonempty.
  - apply Hobs.
Qed.

Lemma miss_then_write_back_then_hit_witness :
  let options := firebaseOnly reliableFirestore in
  let w1 := snd (getPlacePredictions options (Some "123 Main") (worldOf ∅)) in
  let w2 := snd (basePredictionsEffect options (Some [parisPrediction; lyonPrediction])
                   false w1) in
  let w3 := snd (getPlacePredictions options (Some " 123 MAIN ") w2) in
  lastResultFromCache (service w3) = Some true
  /\ lastCacheLayerName (service w3) = Some "firebase"
  /\ (forall p, p ∈ [parisPrediction; lyonPrediction] -> p ∈ placePredictions (service w3))
  /\ baseCalls (calls w3) = baseCalls (calls w2).
Proof.
  apply (miss_then_write_back_then_hit (firebaseOnly reliableFirestore)
           {| firestore := Some reliableFirestore; collectionPath := None |}
           reliableFirestore "123 Main" " 123 MAIN " [parisPrediction; lyonPrediction]
           false (worldOf ∅)); try reflexivity.
  - vm_compute. discriminate.
  - discriminate.
  - repeat constructor.
  - cbn. apply NoDup_cons. split; [| apply NoDup_singleton].
    intros H. apply list_elem_of_singleton in H. discriminate H.
Defined.

(** ** The input binding *)

(** X22. Typing a value shorter than the minimum search length keeps the
    typed text in the input cell and resets the predictions: the current
    predictions become empty, the loading flag goes down, the provenance
    becomes absent, and the underlying prediction hook receives the empty
    string, not the typed text.  No cache layer is read and the stores are
    not touched. *)
Theorem handleChange_below_minimum
    (options : UseFirebaseGoogleAddressOptions) (value : string) (h : AddressHook) :
  String.length value < default 3 (minSearchLength options) ->
  handleChange options value h =
    (Normal tt,
     {| inputValue := value;
        hookWorld :=
          {| service :=
               {| placePredictions := [];
                  isPlacePredictionsLoading := false;
                  lastResultFromCache := None;
                  lastCacheLayerName := None;
                  lastInputRef := lastInputRef (service (hookWorld h)) |};
             address := address (hookWorld h);
             stores := stores (hookWorld h);
             calls := calls (hookWorld h) ++ [CallBaseGetPlacePredictions ""] |} |}).
Proof.
  intros Hshort. unfold handleChange.
  apply Nat.ltb_lt in Hshort. unfold bind, setInputValue, modify.
  cbn [inputValue hookWorld]. rewrite Hshort. reflexivity.
Qed.

Lemma handleChange_below_minimum_witness :
  handleChange {| serviceOptions := twoHits None; minSearchLength := None |} "Pa"
    {| inputValue := "P"; hookWorld := afterMemoryHit |}
  = (Normal tt,
     {| inputValue := "Pa";
        hookWorld :=
          {| service :=
               {| placePredictions := [];
                  isPlacePredictionsLoading := false;
                  lastResultFromCache := None;
                  lastCacheLayerName := None;
                  lastInputRef := lastInputRef (service afterMemoryHit) |};
             address := address afterMemoryHit;
             stores := stores afterMemoryHit;
             calls := calls afterMemoryHit ++ [CallBaseGetPlacePredictions ""] |} |}).
Proof.
  apply (handleChange_below_minimum
           {| serviceOptions := twoHits None; minSearchLength := None |} "Pa"
           {| inputValue := "P"; hookWorld := afterMemoryHit |}).
  cbn. lia.
Defined.

(** The prediction pipeline never touches the selection state. *)
Lemma getPlacePredictions_loop_address obs value layers w :
  address (snd (getPlacePredictions_loop obs value layers w)) = address w.
Proof.
  revert w. induction layers as [|layer rest IH]; intros w; [reflexivity |].
  rewrite getPlacePredictions_loop_cons.
  destruct (probeLayer obs value layer w) as [[[|]|] w1] eqn:Ep; cbn [snd].
  - now apply probeLayer_returned in Ep as (_ & _ & _ & _ & _ & _ & Ha).
  - apply probeLayer_continues in Ep as [_ Ha]. now rewrite IH.
  - pose proof (probeLayer_never_throws obs value layer w) as Hnt.
    rewrite Ep in Hnt. now destruct Hnt.
Qed.

Lemma getPlacePredictions_address options input w :
  address (snd (getPlacePredictions options input w)) = address w.
Proof.
  unfold getPlacePredictions. destruct (normalizeInput (default "" input)); [reflexivity |].
  cbv [bind setIsPlacePredictionsLoading modify withService].
  now rewrite getPlacePredictions_loop_address.
Qed.

(** X23. A value that reaches the minimum search length goes through the
    pipeline as typed, and the address hook reports loading for as long as
    the pipeline or a selection does: after the change the input cell holds
    the value, the world is the one [getPlacePredictions] leaves for that
    value, and [loading] is the disjunction of the loading flag of that world
    and of the in-flight flag, which the change did not touch. *)
Theorem handleChange_at_minimum
    (options : UseFirebaseGoogleAddressOptions) (value : string) (h : AddressHook) :
  default 3 (minSearchLength options) <= String.length value ->
  let r := handleChange options value h in
  let w' := snd (getPlacePredictions (serviceOptions options) (Some value) (hookWorld h)) in
  fst r = Normal tt
  /\ inputValue (snd r) = value
  /\ hookWorld (snd r) = w'
  /\ loading (snd r) =
       isPlacePredictionsLoading (service w') || isSelecting (address (hookWorld h)).
Proof.
  intros Hlong. cbn zeta. unfold handleChange.
  apply Nat.ltb_ge in Hlong. unfold bind, setInputValue, modify.
  cbn [inputValue hookWorld]. rewrite Hlong. unfold onWorld. cbn [hookWorld inputValue].
  pose proof (getPlacePredictions_returns (serviceOptions options) (Some value) (hookWorld h))
    as Hret.
  pose proof (getPlacePredictions_address (serviceOptions options) (Some value) (hookWorld h))
    as Haddr.
  destruct (getPlacePredictions (serviceOptions options) (Some value) (hookWorld h))
    as [r w'] eqn:E.
  cbn [fst snd] in *. subst r. cbn [fst snd inputValue hookWorld]. unfold loading.
  cbn [hookWorld]. now rewrite Haddr.
Qed.

Lemma handleChange_at_minimum_witness :
  let options := {| serviceOptions := twoHits None; minSearchLength := Some 2 |} in
  let h := {| inputValue := "P"; hookWorld := worldOf ∅ |} in
  let r := handleChange options "Pa" h in
  let w' := snd (getPlacePredictions (twoHits None) (Some "Pa") (worldOf ∅)) in
  fst r = Normal tt
  /\ inputValue (snd r) = "Pa"
  /\ hookWorld (snd r) = w'
  /\ loading (snd r) =
       isPlacePredictionsLoading (service w') || isSelecting (address (worldOf ∅)).
Proof.
  apply (handleChange_at_minimum
           {| serviceOptions := twoHits None; minSearchLength := Some 2 |} "Pa"
           {| inputValue := "P"; hookWorld := worldOf ∅ |}).
  cbn. lia.
Defined.
